(** * s3-downloader.js: a shallow embedding and its verified properties

    The script lists "record folders" under a few configured prefixes of an
    S3 bucket, and mirrors selected objects of each into a local directory,
    skipping whatever is already on disk.  This file embeds the script
    (src/s3-downloader.js) function by function and proves the properties
    its specification states.

    Strings are [string] (sequences of bytes; a JavaScript string is read in
    its UTF-8 encoding, on which the operations used here, prefix search and
    splitting at the slash, behave as on the code units).  Counters are [nat].
    The parts of the platform the script calls ([String.prototype.replace],
    [path.join], [path.dirname], the [fs] calls, the S3 client) are modelled
    in their own modules below, after the Node.js documentation and
    lib/path.js; [path] is the POSIX variant. *)

From Stdlib Require Import Ascii String List Bool Arith Lia.
From stdpp Require Import base option list strings gmap fin_maps.

Local Open Scope string_scope.
Local Open Scope list_scope.
Local Open Scope nat_scope.

(* ===================================================================== *)
(** ** JavaScript string primitives *)
(* ===================================================================== *)

Module JS.

(** [s.slice(n)] for [0 <= n]. *)
Fixpoint slice_from (n : nat) (s : string) : string :=
  match n, s with
  | O, _ => s
  | S _, EmptyString => EmptyString
  | S n', String _ s' => slice_from n' s'
  end.


(** [s.endsWith(p)]. *)
Fixpoint endsWith (s p : string) : bool :=
  String.eqb s p ||
  match s with
  | EmptyString => false
  | String _ s' => endsWith s' p
  end.

(** [s.replace(pat, rep)] for a string pattern [pat] and a replacement
    without dollar patterns (the script only passes the empty string):
    the first occurrence of [pat], searched from the left, is replaced;
    a string without occurrence is returned as it is. *)
Fixpoint replace (s pat rep : string) {struct s} : string :=
  if String.prefix pat s
  then rep +:+ slice_from (String.length pat) s
  else match s with
       | EmptyString => EmptyString
       | String c s' => String c (replace s' pat rep)
       end.

(** A value used as a condition: [null], [undefined] and the empty string
    are falsy, every other string is truthy. *)
Definition truthy (v : option string) : bool :=
  match v with
  | None => false
  | Some s => negb (String.eqb s "")
  end.

End JS.

(* ===================================================================== *)
(** ** Node's [path] module (POSIX) *)
(* ===================================================================== *)

Module Path.

Definition sep : ascii := "/"%char.

Definition is_sep (c : ascii) : bool := Ascii.eqb c sep.

(** The segments of a path: the pieces between separators, empty pieces
    included (["a//b"] has segments [a], [], [b]). *)
Fixpoint segments (s : string) : list string :=
  match s with
  | EmptyString => [EmptyString]
  | String c s' =>
      if is_sep c then EmptyString :: segments s'
      else match segments s' with
           | seg :: segs => String c seg :: segs
           | [] => [String c EmptyString]
           end
  end.

Definition unsegments (segs : list string) : string := String.concat "/" segs.

(** One step of [normalizeString]: the path built so far is a stack of
    segments, topmost (rightmost) first.  Empty segments and ["."] are
    dropped; [".."] removes the segment before it, unless there is none or
    it is itself [".."], in which case it is kept for a relative path
    ([allowAboveRoot]) and dropped for an absolute one. *)
Definition norm_step (allowAboveRoot : bool) (stack : list string) (seg : string)
  : list string :=
  if String.eqb seg "" || String.eqb seg "." then stack
  else if String.eqb seg ".." then
    match stack with
    | top :: below =>
        if String.eqb top ".."
        then (if allowAboveRoot then ".." :: stack else stack)
        else below
    | [] => if allowAboveRoot then [".."] else []
    end
  else seg :: stack.

Definition normalizeString (path : string) (allowAboveRoot : bool) : string :=
  unsegments (rev (fold_left (norm_step allowAboveRoot) (segments path) [])).

Definition first_is_sep (s : string) : bool :=
  match s with
  | String c _ => is_sep c
  | EmptyString => false
  end.

(** [path.charCodeAt(path.length - 1) === CHAR_FORWARD_SLASH]. *)
Fixpoint last_is_sep (s : string) : bool :=
  match s with
  | EmptyString => false
  | String c EmptyString => is_sep c
  | String _ s' => last_is_sep s'
  end.

(** [path.normalize]. *)
Definition normalize (path : string) : string :=
  if String.eqb path "" then "."
  else
    let isAbsolute := first_is_sep path in
    let trailingSeparator := last_is_sep path in
    let p := normalizeString path (negb isAbsolute) in
    if String.eqb p "" then
      (if isAbsolute then "/" else if trailingSeparator then "./" else ".")
    else
      let p' := if trailingSeparator then p +:+ "/" else p in
      if isAbsolute then "/" +:+ p' else p'.

(** [path.join(...args)]: the non-empty arguments, joined by the
    separator, then normalized. *)
Definition join (args : list string) : string :=
  match List.filter (fun a => negb (String.eqb a "")) args with
  | [] => "."
  | parts => normalize (unsegments parts)
  end.

Fixpoint drop_while (f : ascii -> bool) (l : list ascii) : list ascii :=
  match l with
  | [] => []
  | c :: l' => if f c then drop_while f l' else l
  end.

(** [path.dirname]: trailing separators are ignored, then everything from
    the last separator on is cut; the scan never looks at the first
    character, which only decides between the roots ["/"] and ["."]. *)
Definition dirname (path : string) : string :=
  match path with
  | EmptyString => "."
  | String c0 rest =>
      let hasRoot := is_sep c0 in
      let r1 := drop_while is_sep (rev (list_ascii_of_string rest)) in
      let r2 := drop_while (fun c => negb (is_sep c)) r1 in
      match r2 with
      | [] => if hasRoot then "/" else "."
      | _ :: r3 =>
          match r3 with
          | [] => if hasRoot then "//" else String c0 EmptyString
          | _ => String c0 (string_of_list_ascii (rev r3))
          end
      end
  end.

End Path.

(* ===================================================================== *)
(** ** The S3 client *)
(* ===================================================================== *)

(** The bucket is a collaborator of the script.  It is modelled by what it
    answers: a client is a pair of functions from requests to responses, so
    that the same request gets the same answer for as long as the client
    (the remote store) is the same. *)

Module S3.

Definition Error := string.

Record ListObjectsV2Command := {
  Bucket : string;
  Prefix : string;
  Delimiter : option string;
  ContinuationToken : option string
}.

Record CommonPrefix := { cp_Prefix : string }.

Record Object := { Key : string }.

Record ListObjectsV2Output := {
  CommonPrefixes : option (list CommonPrefix);
  Contents : option (list Object);
  IsTruncated : bool;
  NextContinuationToken : option string
}.

Record GetObjectCommand := { get_Bucket : string; get_Key : string }.

(** The body of a fetched object is a readable stream: the bytes it
    delivers, and whether it then ends ([true]) or breaks with an error. *)
Record Stream := { delivered : string; ends_well : bool }.

Record GetObjectOutput := { Body : Stream }.

Record Client := {
  send_list : ListObjectsV2Command -> Error + ListObjectsV2Output;
  send_get : GetObjectCommand -> Error + GetObjectOutput
}.

End S3.

(** What awaiting an [async] function gives: its value, the error it was
    rejected with, or nothing yet when the bound on the number of requests
    is used up. *)
Inductive Awaited (A : Type) : Type :=
| Fulfilled (a : A)
| Rejected (e : S3.Error)
| Pending.
Arguments Fulfilled {A} a.
Arguments Rejected {A} e.
Arguments Pending {A}.

(* ===================================================================== *)
(** ** The local file system *)
(* ===================================================================== *)

(** A file system is a finite map from paths to nodes.  Paths are compared
    as strings (the script only ever uses the normalized paths that
    [path.join] and [path.dirname] return); the two roots ["."] and ["/"]
    are directories that are always there. *)

Module Fs.

Inductive node : Type :=
| File (content : string)
| Dir.

Definition is_root (p : string) : bool := String.eqb p "." || String.eqb p "/".

Definition stat (fs : gmap string node) (p : string) : option node :=
  if is_root p then Some Dir else fs !! p.

(** [fs.existsSync]. *)
Definition existsSync (fs : gmap string node) (p : string) : bool :=
  match stat fs p with
  | Some _ => true
  | None => false
  end.

(** [fs.mkdirSync(d, { recursive: true })]: an existing directory is left
    alone, an existing file makes the call throw ([None]), and a missing
    directory is created after its parent.  [n] bounds the number of
    parents visited. *)
Fixpoint mkdirp (n : nat) (fs : gmap string node) (d : string)
  : option (gmap string node) :=
  match stat fs d with
  | Some Dir => Some fs
  | Some (File _) => None
  | None =>
      match n with
      | O => None
      | S n' =>
          match mkdirp n' fs (Path.dirname d) with
          | Some fs' => Some (<[d := Dir]> fs')
          | None => None
          end
      end
  end.

Definition mkdirSync_recursive (fs : gmap string node) (d : string)
  : option (gmap string node) :=
  mkdirp (S (String.length d)) fs d.

(** [pipeline(body, fs.createWriteStream(p))]: the file is opened for
    writing, which fails when its directory is missing or is a file, or
    when [p] is a directory; the bytes the stream delivers are written,
    and the pipeline succeeds when the stream ends well.  The second
    component is [false] when the promise is rejected.  Other reasons for
    which the open or a write can fail on a real disk (a name that is too
    long, missing permissions, a full disk) are not part of the model. *)
Definition pipeline (body : S3.Stream) (fs : gmap string node) (p : string)
  : gmap string node * bool :=
  match stat fs (Path.dirname p), stat fs p with
  | Some Dir, Some Dir => (fs, false)
  | Some Dir, _ => (<[p := File (S3.delivered body)]> fs, S3.ends_well body)
  | _, _ => (fs, false)
  end.

End Fs.

(* ===================================================================== *)
(** ** The script *)
(* ===================================================================== *)

(** The constants at the head of the script. *)
Record Config := {
  REGION : string;
  BUCKET_NAME : string;
  S3_BASE_PREFIX : string;
  DOWNLOAD_DIR : string;
  MAIN_FOLDERS : list string;
  FOLDERS_TO_DOWNLOAD : list string;
  JSON_FILES_TO_DOWNLOAD : list string
}.


(** What [downloadFile] returns: [true], ['skipped'] or [false]. *)
Inductive Outcome : Type :=
| Downloaded
| Skipped
| Failed.

(** What the script acts on besides its counters: the local files, the
    [GetObject] requests sent so far (oldest first), and the lines that
    [downloadFile] printed, one per call, as the key and the outcome. *)
Record World := {
  files : gmap string Fs.node;
  gets : list string;
  console : list (string * Outcome)
}.

Definition print (key : string) (o : Outcome) (w : World) : World :=
  {| files := files w; gets := gets w; console := console w ++ [(key, o)] |}.

Definition sent_get (key : string) (w : World) : World :=
  {| files := files w; gets := gets w ++ [key]; console := console w |}.

Definition with_files (fs : gmap string Fs.node) (w : World) : World :=
  {| files := fs; gets := gets w; console := console w |}.

Section Script.

Variable cfg : Config.
Variable s3Client : S3.Client.

(** [Set.prototype.add] on a set kept in insertion order. *)
Definition set_add (x : string) (s : list string) : list string :=
  if decide (x ∈ s) then s else s ++ [x].

Definition next_token (response : S3.ListObjectsV2Output) : option string :=
  if S3.IsTruncated response then S3.NextContinuationToken response else None.

(** The [do ... while (continuationToken)] loop of [listFolders]; [fuel]
    bounds the number of requests. *)
Fixpoint listFolders_loop (fuel : nat) (prefix : string)
    (folders : list string) (continuationToken : option string)
  : Awaited (list string) :=
  match fuel with
  | O => Pending
  | S fuel' =>
      let command := {| S3.Bucket := BUCKET_NAME cfg;
                        S3.Prefix := prefix;
                        S3.Delimiter := Some "/";
                        S3.ContinuationToken := continuationToken |} in
      match S3.send_list s3Client command with
      | inl e => Rejected e
      | inr response =>
          let folders' :=
            match S3.CommonPrefixes response with
            | Some items =>
                fold_left (fun s item => set_add (S3.cp_Prefix item) s) items folders
            | None => folders
            end in
          let continuationToken' := next_token response in
          if JS.truthy continuationToken'
          then listFolders_loop fuel' prefix folders' continuationToken'
          else Fulfilled folders'
      end
  end.

Definition listFolders (fuel : nat) (prefix : string) : Awaited (list string) :=
  listFolders_loop fuel prefix [] None.

(** The loop of [listAllFiles]. *)
Fixpoint listAllFiles_loop (fuel : nat) (prefix : string)
    (files : list string) (continuationToken : option string)
  : Awaited (list string) :=
  match fuel with
  | O => Pending
  | S fuel' =>
      let command := {| S3.Bucket := BUCKET_NAME cfg;
                        S3.Prefix := prefix;
                        S3.Delimiter := None;
                        S3.ContinuationToken := continuationToken |} in
      match S3.send_list s3Client command with
      | inl e => Rejected e
      | inr response =>
          let files' :=
            match S3.Contents response with
            | Some items => files ++ map S3.Key items
            | None => files
            end in
          let continuationToken' := next_token response in
          if JS.truthy continuationToken'
          then listAllFiles_loop fuel' prefix files' continuationToken'
          else Fulfilled files'
      end
  end.

Definition listAllFiles (fuel : nat) (prefix : string) : Awaited (list string) :=
  listAllFiles_loop fuel prefix [] None.

(** [downloadFile(key, localPath)].  The whole body is inside [try], and
    every path through it returns; the [catch] turns whatever was thrown
    into [false]. *)
Definition downloadFile (key localPath : string) (w : World) : Outcome * World :=
  if Fs.existsSync (files w) localPath then (Skipped, print key Skipped w)
  else
    let command := {| S3.get_Bucket := BUCKET_NAME cfg; S3.get_Key := key |} in
    let w1 := sent_get key w in
    match S3.send_get s3Client command with
    | inl e => (Failed, print key Failed w1)
    | inr response =>
        let dir := Path.dirname localPath in
        let made :=
          if negb (Fs.existsSync (files w1) dir)
          then Fs.mkdirSync_recursive (files w1) dir
          else Some (files w1) in
        match made with
        | None => (Failed, print key Failed w1)
        | Some fs1 =>
            let (fs2, ok) := Fs.pipeline (S3.Body response) fs1 localPath in
            if ok then (Downloaded, print key Downloaded (with_files fs2 w1))
            else (Failed, print key Failed (with_files fs2 w1))
        end
    end.

(** The five counters of [downloadFromS3]. *)
Record Stats := {
  totalDownloaded : nat;
  totalFailed : nat;
  totalFolders : nat;
  totalRecordFolders : nat;
  totalSkipped : nat
}.

Definition no_stats : Stats :=
  {| totalDownloaded := 0; totalFailed := 0; totalFolders := 0;
     totalRecordFolders := 0; totalSkipped := 0 |}.

(** The [if (success === true) ... else if (success === 'skipped') ...
    else ...] after each call of [downloadFile]. *)
Definition count (success : Outcome) (s : Stats) : Stats :=
  match success with
  | Downloaded =>
      {| totalDownloaded := S (totalDownloaded s); totalFailed := totalFailed s;
         totalFolders := totalFolders s; totalRecordFolders := totalRecordFolders s;
         totalSkipped := totalSkipped s |}
  | Skipped =>
      {| totalDownloaded := totalDownloaded s; totalFailed := totalFailed s;
         totalFolders := totalFolders s; totalRecordFolders := totalRecordFolders s;
         totalSkipped := S (totalSkipped s) |}
  | Failed =>
      {| totalDownloaded := totalDownloaded s; totalFailed := S (totalFailed s);
         totalFolders := totalFolders s; totalRecordFolders := totalRecordFolders s;
         totalSkipped := totalSkipped s |}
  end.

Definition count_folder (s : Stats) : Stats :=
  {| totalDownloaded := totalDownloaded s; totalFailed := totalFailed s;
     totalFolders := S (totalFolders s); totalRecordFolders := totalRecordFolders s;
     totalSkipped := totalSkipped s |}.

Definition count_record_folder (s : Stats) : Stats :=
  {| totalDownloaded := totalDownloaded s; totalFailed := totalFailed s;
     totalFolders := totalFolders s; totalRecordFolders := S (totalRecordFolders s);
     totalSkipped := totalSkipped s |}.

Definition State : Type := Stats * World.

(** The local path of a key (lines 169-170 and 206-207). *)
Definition localPathOf (fileKey : string) : string :=
  let relativePath := JS.replace fileKey (S3_BASE_PREFIX cfg) "" in
  Path.join [DOWNLOAD_DIR cfg; relativePath].

(** The body both download loops share: derive the path, download, count. *)
Definition fetch (fileKey : string) (st : State) : State :=
  let localPath := localPathOf fileKey in
  let (success, w') := downloadFile fileKey localPath (snd st) in
  (count success (fst st), w').

(** How a stretch of [downloadFromS3] ends: it runs to its end, or a
    listing call is rejected and the rejection leaves the function, or a
    listing is still asking for pages when the bound is used up. *)
Inductive Run : Type :=
| Completed (st : State)
| Crashed (e : S3.Error) (st : State)
| Unfinished.

(** A [for ... of] loop whose body may be left by a rejection. *)
Fixpoint for_each {A : Type} (body : A -> State -> Run) (l : list A) (st : State)
  : Run :=
  match l with
  | [] => Completed st
  | x :: l' =>
      match body x st with
      | Completed st' => for_each body l' st'
      | stopped => stopped
      end
  end.

(** Lines 167-182. *)
Definition download_json_files (subFolder : string) (st : State) : State :=
  fold_left (fun st jsonFile => fetch (subFolder +:+ jsonFile) st)
            (JSON_FILES_TO_DOWNLOAD cfg) st.

(** Lines 203-219. *)
Definition download_each (actualFiles : list string) (st : State) : State :=
  fold_left (fun st fileKey => fetch fileKey st) actualFiles st.

(** The body of the loop over [FOLDERS_TO_DOWNLOAD] (lines 186-219). *)
Definition download_folder (fuel : nat) (subFolder targetFolder : string)
    (st : State) : Run :=
  let fullPrefix := subFolder +:+ targetFolder in
  match listAllFiles fuel fullPrefix with
  | Rejected e => Crashed e st
  | Pending => Unfinished
  | Fulfilled files =>
      let actualFiles := List.filter (fun key => negb (JS.endsWith key "/")) files in
      if Nat.eqb (length actualFiles) 0 then Completed st
      else Completed (download_each actualFiles st)
  end.

(** The body of the loop over the record folders (lines 158-220). *)
Definition process_record_folder (fuel : nat) (subFolder : string) (st : State)
  : Run :=
  let st1 := (count_record_folder (fst st), snd st) in
  let st2 := download_json_files subFolder st1 in
  for_each (download_folder fuel subFolder) (FOLDERS_TO_DOWNLOAD cfg) st2.

(** The body of the loop over [MAIN_FOLDERS] (lines 134-226). *)
Definition process_main_folder (fuel : nat) (mainFolder : string) (st : State)
  : Run :=
  let scanPrefix := S3_BASE_PREFIX cfg +:+ mainFolder +:+ "/" in
  match listFolders fuel scanPrefix with
  | Rejected e => Crashed e st
  | Pending => Unfinished
  | Fulfilled subFolders =>
      if Nat.eqb (length subFolders) 0 then Completed st
      else
        match for_each (process_record_folder fuel) subFolders st with
        | Completed st' => Completed (count_folder (fst st'), snd st')
        | stopped => stopped
        end
  end.

(** [downloadFromS3()], started in world [w]. *)
Definition downloadFromS3 (fuel : nat) (w : World) : Run :=
  for_each (process_main_folder fuel) (MAIN_FOLDERS cfg) (no_stats, w).

(** The last lines of the script: a rejection of [downloadFromS3] ends the
    process with code 1; when it returns, nothing is left to do and the
    process ends with code 0.  [None]: the process has not ended. *)
Definition exit_code (r : Run) : option nat :=
  match r with
  | Completed _ => Some 0
  | Crashed _ _ => Some 1
  | Unfinished => None
  end.

Definition main (fuel : nat) (w : World) : option nat :=
  exit_code (downloadFromS3 fuel w).

End Script.

(* ===================================================================== *)
(** ** Vocabulary of the statements *)
(* ===================================================================== *)

(** A segment that [path.normalize] keeps as it is: not empty, not ["."],
    not [".."]. *)
Definition plain_segment (seg : string) : bool :=
  negb (String.eqb seg "" || String.eqb seg "." || String.eqb seg "..").

(** A relative path made of such segments only, as [a/b/c.json]: no leading,
    trailing or doubled separator, no dot segment. *)
Definition plain (s : string) : bool := forallb plain_segment (Path.segments s).

(** A listing answered in pages.  [paged c bucket prefix delim token pages
    ending] reads: the requests for [prefix] that start with the
    continuation token [token] are answered by [pages], in this order; every
    page but the last is truncated and names the (non-empty) token that the
    request for the next page carries.  With [ending = None] the last page
    is not truncated: the provider reports no further page.  With
    [ending = Some e] the request after the last of [pages] fails with [e]. *)
Inductive paged (c : S3.Client) (bucket prefix : string) (delim : option string)
  : option string -> list S3.ListObjectsV2Output -> option S3.Error -> Prop :=
| paged_fails token e :
    S3.send_list c {| S3.Bucket := bucket; S3.Prefix := prefix;
                      S3.Delimiter := delim; S3.ContinuationToken := token |}
      = inl e ->
    paged c bucket prefix delim token [] (Some e)
| paged_last token response :
    S3.send_list c {| S3.Bucket := bucket; S3.Prefix := prefix;
                      S3.Delimiter := delim; S3.ContinuationToken := token |}
      = inr response ->
    S3.IsTruncated response = false ->
    paged c bucket prefix delim token [response] None
| paged_more token response next rest ending :
    S3.send_list c {| S3.Bucket := bucket; S3.Prefix := prefix;
                      S3.Delimiter := delim; S3.ContinuationToken := token |}
      = inr response ->
    S3.IsTruncated response = true ->
    S3.NextContinuationToken response = Some next ->
    next <> "" ->
    paged c bucket prefix delim (Some next) rest ending ->
    paged c bucket prefix delim token (response :: rest) ending.

(** The keys, and the common prefixes, that a page carries. *)
Definition keys_of (response : S3.ListObjectsV2Output) : list string :=
  match S3.Contents response with
  | Some items => map S3.Key items
  | None => []
  end.

Definition prefixes_of (response : S3.ListObjectsV2Output) : list string :=
  match S3.CommonPrefixes response with
  | Some items => map S3.cp_Prefix items
  | None => []
  end.

(** The elements of a list in the order of their first occurrence. *)
Definition first_occurrences (l : list string) : list string :=
  fold_left (fun s x => set_add x s) l [].

(** A file system is well formed when whatever exists lies in a directory. *)
Definition well_formed (fs : gmap string Fs.node) : Prop :=
  forall p n, Fs.stat fs p = Some n -> Fs.stat fs (Path.dirname p) = Some Fs.Dir.

(** [fs'] has everything [fs] has, unchanged. *)
Definition extends (fs fs' : gmap string Fs.node) : Prop :=
  forall p n, Fs.stat fs p = Some n -> Fs.stat fs' p = Some n.

(** How far a path is from a root, at most. *)
Definition height (p : string) : nat :=
  if Fs.is_root p then 0 else S (String.length p).

(** The state in which a stretch of the run ends, when it ends. *)
Definition ended (r : Run) : option State :=
  match r with
  | Completed st => Some st
  | Crashed _ st => Some st
  | Unfinished => None
  end.

Definition same_outcome (a b : Outcome) : bool :=
  match a, b with
  | Downloaded, Downloaded | Skipped, Skipped | Failed, Failed => true
  | _, _ => false
  end.

(** The number of console lines with a given outcome. *)
Definition lines_with (o : Outcome) (lines : list (string * Outcome)) : nat :=
  length (List.filter (fun line => same_outcome (snd line) o) lines).

(** [st'] comes after [st], and the three download counters have moved in
    step with the lines that [downloadFile] printed in between. *)
Definition tallied (st st' : State) : Prop :=
  exists lines,
    console (snd st') = console (snd st) ++ lines /\
    totalDownloaded (fst st') = totalDownloaded (fst st) + lines_with Downloaded lines /\
    totalSkipped (fst st') = totalSkipped (fst st) + lines_with Skipped lines /\
    totalFailed (fst st') = totalFailed (fst st) + lines_with Failed lines.

(** No counter of [st'] is below its value in [st]. *)
Definition grown (st st' : State) : Prop :=
  totalDownloaded (fst st) <= totalDownloaded (fst st') /\
  totalSkipped (fst st) <= totalSkipped (fst st') /\
  totalFailed (fst st) <= totalFailed (fst st') /\
  totalFolders (fst st) <= totalFolders (fst st') /\
  totalRecordFolders (fst st) <= totalRecordFolders (fst st').

Definition counted (st st' : State) : Prop := tallied st st' /\ grown st st'.

(** A body of the run respects a relation when every stretch that ends,
    by completing or by a rejection, is in the relation. *)
Definition respects (Rel : State -> State -> Prop) (body : State -> Run) : Prop :=
  forall st st', ended (body st) = Some st' -> Rel st st'.

(** Two statements one after the other are a loop over the two. *)
Definition in_sequence (bodies : list (State -> Run)) (st : State) : Run :=
  for_each (fun body => body) bodies st.

Definition pure (f : State -> State) (st : State) : Run := Completed (f st).

(** The record folders found under a main folder. *)
Definition record_folders (cfg : Config) (c : S3.Client) (fuel : nat)
    (mainFolder : string) : list string :=
  match listFolders cfg c fuel (S3_BASE_PREFIX cfg +:+ mainFolder +:+ "/") with
  | Fulfilled subFolders => subFolders
  | _ => []
  end.

Definition has_record_folders (cfg : Config) (c : S3.Client) (fuel : nat)
    (mainFolder : string) : bool :=
  negb (Nat.eqb (length (record_folders cfg c fuel mainFolder)) 0).

(** A line of a second run against the line of the first run for the same
    key: nothing is downloaded again, and what the first run downloaded or
    skipped is skipped. *)
Definition again (first second : string * Outcome) : Prop :=
  fst second = fst first /\
  snd second <> Downloaded /\
  (snd first <> Failed -> snd second = Skipped).

(** A stretch that went from [st] to [st1] is replayed from [st2] to [st2']:
    the files and the download counter stay, and the lines printed answer
    those of the first time one by one. *)
Definition replays (st st1 st2 st2' : State) : Prop :=
  files (snd st2') = files (snd st2) /\
  totalDownloaded (fst st2') = totalDownloaded (fst st2) /\
  exists lines lines2,
    console (snd st1) = console (snd st) ++ lines /\
    console (snd st2') = console (snd st2) ++ lines2 /\
    Forall2 again lines lines2.

Definition same_ending (r r2 : Run) : Prop :=
  match r, r2 with
  | Completed _, Completed _ => True
  | Crashed e _, Crashed e2 _ => e = e2
  | Unfinished, Unfinished => True
  | _, _ => False
  end.

(** A body is repeatable when, started on a well-formed file system, it
    leaves one that extends it, and when started again on any well-formed
    file system that extends what it left, it ends the same way and
    replays. *)
Definition repeatable (body : State -> Run) : Prop :=
  forall st st1,
    well_formed (files (snd st)) ->
    ended (body st) = Some st1 ->
    well_formed (files (snd st1)) /\
    extends (files (snd st)) (files (snd st1)) /\
    forall st2,
      well_formed (files (snd st2)) ->
      extends (files (snd st1)) (files (snd st2)) ->
      exists st2',
        ended (body st2) = Some st2' /\
        same_ending (body st) (body st2) /\
        replays st st1 st2 st2'.

(** The two folder counters are where they were. *)
Definition same_folders (st st' : State) : Prop :=
  totalFolders (fst st') = totalFolders (fst st) /\
  totalRecordFolders (fst st') = totalRecordFolders (fst st).

(** Every listing is answered, without error, in at most [fuel] pages. *)
Definition listings_succeed (cfg : Config) (c : S3.Client) (fuel : nat) : Prop :=
  forall prefix delim,
    exists pages,
      paged c (BUCKET_NAME cfg) prefix delim None pages None /\ length pages <= fuel.

(** A rejection that leaves a body comes from a listing request. *)
Definition explained (c : S3.Client) (body : State -> Run) : Prop :=
  forall st e st', body st = Crashed e st' -> exists command, S3.send_list c command = inl e.

Definition completes (body : State -> Run) : Prop :=
  forall st, exists st', body st = Completed st'.

(** ** A small bucket for the examples

    One main folder with two record folders, listed in two pages (the
    second page repeats a prefix of the first), and one main folder without
    record folders.  Of the objects asked for, two can be read, one breaks
    while it is streamed, and the others are missing. *)

Definition sample_config : Config := {|
  REGION := "eu-west-1";
  BUCKET_NAME := "bucket";
  S3_BASE_PREFIX := "base/";
  DOWNLOAD_DIR := "out";
  MAIN_FOLDERS := ["folder1"; "empty"];
  FOLDERS_TO_DOWNLOAD := ["photos/"];
  JSON_FILES_TO_DOWNLOAD := ["metadata.json"; "config.json"]
|}.

Definition folders_page1 : S3.ListObjectsV2Output := {|
  S3.CommonPrefixes := Some [ {| S3.cp_Prefix := "base/folder1/rec-1/" |} ];
  S3.Contents := None;
  S3.IsTruncated := true;
  S3.NextContinuationToken := Some "page2"
|}.

Definition folders_page2 : S3.ListObjectsV2Output := {|
  S3.CommonPrefixes := Some [ {| S3.cp_Prefix := "base/folder1/rec-1/" |};
                              {| S3.cp_Prefix := "base/folder1/rec-2/" |} ];
  S3.Contents := None;
  S3.IsTruncated := false;
  S3.NextContinuationToken := None
|}.

Definition photos_page1 : S3.ListObjectsV2Output := {|
  S3.CommonPrefixes := None;
  S3.Contents := Some [ {| S3.Key := "base/folder1/rec-1/photos/" |};
                        {| S3.Key := "base/folder1/rec-1/photos/img1.jpg" |} ];
  S3.IsTruncated := true;
  S3.NextContinuationToken := Some "more"
|}.

Definition photos_page2 : S3.ListObjectsV2Output := {|
  S3.CommonPrefixes := None;
  S3.Contents := Some [ {| S3.Key := "base/folder1/rec-1/photos//img1.jpg" |} ];
  S3.IsTruncated := false;
  S3.NextContinuationToken := None
|}.

Definition empty_page : S3.ListObjectsV2Output := {|
  S3.CommonPrefixes := None;
  S3.Contents := None;
  S3.IsTruncated := false;
  S3.NextContinuationToken := None
|}.

Definition sample_list (command : S3.ListObjectsV2Command)
  : S3.Error + S3.ListObjectsV2Output :=
  match S3.Delimiter command with
  | Some _ =>
      if String.eqb (S3.Prefix command) "base/folder1/" then
        match S3.ContinuationToken command with
        | None => inr folders_page1
        | Some _ => inr folders_page2
        end
      else inr empty_page
  | None =>
      if String.eqb (S3.Prefix command) "base/folder1/rec-1/photos/" then
        match S3.ContinuationToken command with
        | None => inr photos_page1
        | Some _ => inr photos_page2
        end
      else inr empty_page
  end.

Definition sample_get (command : S3.GetObjectCommand) : S3.Error + S3.GetObjectOutput :=
  if String.eqb (S3.get_Key command) "base/folder1/rec-1/metadata.json" then
    inr {| S3.Body := {| S3.delivered := "{}"; S3.ends_well := true |} |}
  else if String.eqb (S3.get_Key command) "base/folder1/rec-1/photos/img1.jpg" then
    inr {| S3.Body := {| S3.delivered := "JFIF"; S3.ends_well := true |} |}
  else if String.eqb (S3.get_Key command) "base/folder1/rec-1/photos//img1.jpg" then
    inr {| S3.Body := {| S3.delivered := "other"; S3.ends_well := true |} |}
  else if String.eqb (S3.get_Key command) "base/folder1/rec-2/metadata.json" then
    inr {| S3.Body := {| S3.delivered := "{"; S3.ends_well := false |} |}
  else inl "NoSuchKey".

Definition sample_client : S3.Client :=
  {| S3.send_list := sample_list; S3.send_get := sample_get |}.

(** A client whose listings are refused. *)
Definition denied_client : S3.Client :=
  {| S3.send_list := fun _ => inl "AccessDenied"; S3.send_get := sample_get |}.

Definition empty_world : World := {| files := ∅; gets := []; console := [] |}.

(** Where the sample run ends, from an empty local directory and with
    listings of at most two pages. *)
Definition sample_final : State :=
  match ended (downloadFromS3 sample_config sample_client 2 empty_world) with
  | Some st => st
  | None => (no_stats, empty_world)
  end.

(** Where the sample run ends when it is started again on what it left. *)
Definition sample_again : State :=
  match ended (downloadFromS3 sample_config sample_client 2 (snd sample_final)) with
  | Some st => st
  | None => (no_stats, empty_world)
  end.

(** ** Further vocabulary *)

(** The name printed for a record folder (lines 151 and 158): the scan
    prefix is taken out of the common prefix, then the first slash. *)
Definition folderNameOf (scanPrefix subFolder : string) : string :=
  JS.replace (JS.replace subFolder scanPrefix "") "/" "".

(** A string without separator. *)
Fixpoint no_sep (s : string) : bool :=
  match s with
  | EmptyString => true
  | String c s' => negb (Path.is_sep c) && no_sep s'
  end.

(** [pat] occurs somewhere in [s]. *)
Fixpoint occurs (pat s : string) : bool :=
  String.prefix pat s ||
  match s with
  | EmptyString => false
  | String _ s' => occurs pat s'
  end.

(** The pages that a listing loop reads, by the loop's own test: it goes on
    to the next page, with the token of the page just read, as long as that
    token is truthy, and stops at the first page whose token is not. *)
Inductive answered (c : S3.Client) (bucket prefix : string) (delim : option string)
  : option string -> list S3.ListObjectsV2Output -> Prop :=
| answered_last token response :
    S3.send_list c {| S3.Bucket := bucket; S3.Prefix := prefix;
                      S3.Delimiter := delim; S3.ContinuationToken := token |}
      = inr response ->
    JS.truthy (next_token response) = false ->
    answered c bucket prefix delim token [response]
| answered_more token response rest :
    S3.send_list c {| S3.Bucket := bucket; S3.Prefix := prefix;
                      S3.Delimiter := delim; S3.ContinuationToken := token |}
      = inr response ->
    JS.truthy (next_token response) = true ->
    answered c bucket prefix delim (next_token response) rest ->
    answered c bucket prefix delim token (response :: rest).

(** Line 193: the keys that are not folder entries. *)
Definition actual_files (found : list string) : list string :=
  List.filter (fun key => negb (JS.endsWith key "/")) found.

(** The keys listed under a prefix, when the listing is fulfilled. *)
Definition listed (cfg : Config) (c : S3.Client) (fuel : nat) (prefix : string)
  : list string :=
  match listAllFiles cfg c fuel prefix with
  | Fulfilled found => found
  | _ => []
  end.

(** The keys for which a run calls [downloadFile], in the order of the
    calls: for each record folder the JSON files, then the files listed
    under each of the folders to download. *)
Definition planned_record_folder (cfg : Config) (c : S3.Client) (fuel : nat)
    (subFolder : string) : list string :=
  map (fun jsonFile => subFolder +:+ jsonFile) (JSON_FILES_TO_DOWNLOAD cfg)
  ++ concat (map (fun targetFolder =>
                    actual_files (listed cfg c fuel (subFolder +:+ targetFolder)))
                 (FOLDERS_TO_DOWNLOAD cfg)).

Definition planned_main_folder (cfg : Config) (c : S3.Client) (fuel : nat)
    (mainFolder : string) : list string :=
  concat (map (planned_record_folder cfg c fuel) (record_folders cfg c fuel mainFolder)).

Definition planned (cfg : Config) (c : S3.Client) (fuel : nat) : list string :=
  concat (map (planned_main_folder cfg c fuel) (MAIN_FOLDERS cfg)).

(** The keys of the lines that are not skips. *)
Definition requested (lines : list (string * Outcome)) : list string :=
  map fst (List.filter (fun line => negb (same_outcome (snd line) Skipped)) lines).

(** The keys of the lines that are downloads. *)
Definition downloaded_keys (lines : list (string * Outcome)) : list string :=
  map fst (List.filter (fun line => same_outcome (snd line) Downloaded) lines).

(** Between [st] and [st'], a [GetObject] request was sent for each line
    that is not a skip, and for nothing else. *)
Definition accounted (st st' : State) : Prop :=
  exists lines,
    console (snd st') = console (snd st) ++ lines /\
    gets (snd st') = gets (snd st) ++ requested lines.

(** Between [st] and [st'] nothing that existed was removed or changed,
    every download went to a path that did not exist before and exists
    after, and no two downloads went to the same path. *)
Definition written_once (cfg : Config) (st st' : State) : Prop :=
  extends (files (snd st)) (files (snd st')) /\
  exists lines,
    console (snd st') = console (snd st) ++ lines /\
    (forall key, key ∈ downloaded_keys lines ->
       Fs.stat (files (snd st)) (localPathOf cfg key) = None /\
       Fs.stat (files (snd st')) (localPathOf cfg key) <> None) /\
    NoDup (map (localPathOf cfg) (downloaded_keys lines)).

Definition keeps_tree (st st' : State) : Prop :=
  well_formed (files (snd st)) -> well_formed (files (snd st')).

Definition keeps_files (st st' : State) : Prop :=
  extends (files (snd st)) (files (snd st')).

(** A bucket whose listing of record folders is truncated without a token. *)
Definition cut_page : S3.ListObjectsV2Output := {|
  S3.CommonPrefixes := Some [ {| S3.cp_Prefix := "base/folder1/rec-1/" |} ];
  S3.Contents := Some [ {| S3.Key := "base/folder1/a.txt" |} ];
  S3.IsTruncated := true;
  S3.NextContinuationToken := None
|}.

Definition cut_client : S3.Client :=
  {| S3.send_list := fun _ => inr cut_page; S3.send_get := sample_get |}.

(** A bucket that fails on the photos of the first record folder. *)
Definition failing_list (command : S3.ListObjectsV2Command)
  : S3.Error + S3.ListObjectsV2Output :=
  match S3.Delimiter command with
  | Some _ => sample_list command
  | None => inl "SlowDown"
  end.

Definition failing_client : S3.Client :=
  {| S3.send_list := failing_list; S3.send_get := sample_get |}.

(** Where the run on the bucket with the failing photo listing ends. *)
Definition sample_interrupted : State :=
  match ended (downloadFromS3 sample_config failing_client 2 empty_world) with
  | Some st => st
  | None => (no_stats, empty_world)
  end.

(** A local directory that has the directory of the second record folder. *)
Definition prepared_world : World :=
  {| files := <["out/folder1/rec-2" := Fs.Dir]> ∅; gets := []; console := [] |}.

(** Between [st] and [st'] nothing was removed or changed, and every key
    downloaded has, at its local path, a file with the bytes of its object,
    whose stream ended without error. *)
Definition delivered_all (cfg : Config) (c : S3.Client) (st st' : State) : Prop :=
  extends (files (snd st)) (files (snd st')) /\
  exists lines,
    console (snd st') = console (snd st) ++ lines /\
    forall key, key ∈ downloaded_keys lines ->
      exists response,
        S3.send_get c {| S3.get_Bucket := BUCKET_NAME cfg; S3.get_Key := key |}
          = inr response /\
        S3.ends_well (S3.Body response) = true /\
        Fs.stat (files (snd st')) (localPathOf cfg key)
          = Some (Fs.File (S3.delivered (S3.Body response))).

(** ** How listings decide the ending *)

(** What a listing call means for the run: it goes on ([None]), or it stops,
    with the error of a rejection or, for a listing that is still asking
    for pages, without one. *)
Definition stop_of {A : Type} (r : Awaited A) : option (option S3.Error) :=
  match r with
  | Fulfilled _ => None
  | Rejected e => Some (Some e)
  | Pending => Some None
  end.

Definition stop_of_run (r : Run) : option (option S3.Error) :=
  match r with
  | Completed _ => None
  | Crashed e _ => Some (Some e)
  | Unfinished => Some None
  end.

Fixpoint first_stop (l : list (option (option S3.Error))) : option (option S3.Error) :=
  match l with
  | [] => None
  | None :: l' => first_stop l'
  | Some s :: _ => Some s
  end.

(** The listing calls of a run, in the order in which it makes them, each
    with its meaning for the run: per main folder the listing of its record
    folders, then per record folder the listing of each folder to download.
    They depend on the bucket only, not on the local files. *)
Definition stops_record_folder (cfg : Config) (c : S3.Client) (fuel : nat)
    (subFolder : string) : list (option (option S3.Error)) :=
  map (fun targetFolder => stop_of (listAllFiles cfg c fuel (subFolder +:+ targetFolder)))
      (FOLDERS_TO_DOWNLOAD cfg).

Definition stops_main_folder (cfg : Config) (c : S3.Client) (fuel : nat)
    (mainFolder : string) : list (option (option S3.Error)) :=
  stop_of (listFolders cfg c fuel (S3_BASE_PREFIX cfg +:+ mainFolder +:+ "/"))
  :: concat (map (stops_record_folder cfg c fuel) (record_folders cfg c fuel mainFolder)).

Definition stops (cfg : Config) (c : S3.Client) (fuel : nat)
  : list (option (option S3.Error)) :=
  concat (map (stops_main_folder cfg c fuel) (MAIN_FOLDERS cfg)).

(** The record folders that a loop over [subFolders] enters: all of them
    up to and including the first one in which a listing stops the run. *)
Fixpoint reached_record_folders (cfg : Config) (c : S3.Client) (fuel : nat)
    (subFolders : list string) : nat :=
  match subFolders with
  | [] => 0
  | subFolder :: rest =>
      match first_stop (stops_record_folder cfg c fuel subFolder) with
      | None => S (reached_record_folders cfg c fuel rest)
      | Some _ => 1
      end
  end.

(* ===================================================================== *)
(** * Properties *)
(* ===================================================================== *)

(** ** Strings and paths *)

Example join_examples :
  Path.join ["./downloads"; "a/b/c.json"] = "downloads/a/b/c.json" /\
  Path.join ["out"; "a//b/./c/../d"] = "out/a/b/d" /\
  Path.join ["out"; "../../x/"] = "../x/" /\
  Path.join ["/"; "../x"] = "/x" /\
  Path.join [""; ""] = ".".
Proof. repeat split; reflexivity. Qed.

Example dirname_examples :
  Path.dirname "out/a/b/c.json" = "out/a/b" /\
  Path.dirname "a//b" = "a/" /\
  Path.dirname "a/b/" = "a" /\
  Path.dirname "/a" = "/" /\
  Path.dirname "a" = "." /\
  Path.dirname "//a" = "//" /\
  Path.dirname "" = ".".
Proof. repeat split; reflexivity. Qed.

Example replace_examples :
  JS.replace "base/a/base/b" "base/" "" = "a/base/b" /\
  JS.replace "x/base/b" "base/" "" = "x/b" /\
  JS.replace "other/b" "base/" "" = "other/b".
Proof. repeat split; reflexivity. Qed.

Lemma append_cons (c : ascii) (a b : string) : String c a +:+ b = String c (a +:+ b).
Proof. reflexivity. Qed.

Lemma append_nil_l (b : string) : "" +:+ b = b.
Proof. reflexivity. Qed.

Ltac string_app := rewrite ?append_cons, ?append_nil_l in *.

Lemma append_empty_r (s : string) : s +:+ "" = s.
Proof. induction s as [|c s IH]; string_app; [reflexivity | now rewrite IH]. Qed.

Lemma append_assoc (a b c : string) : (a +:+ b) +:+ c = a +:+ (b +:+ c).
Proof. induction a as [|x a IH]; string_app; [reflexivity | now rewrite IH]. Qed.


Lemma prefix_append (a b : string) : String.prefix a (a +:+ b) = true.
Proof.
  induction a as [|x a IH]; string_app; simpl.
  - now destruct b.
  - destruct (ascii_dec x x) as [_|N]; [exact IH | now destruct N].
Qed.

Lemma slice_from_append (a b : string) : JS.slice_from (String.length a) (a +:+ b) = b.
Proof. induction a as [|x a IH]; string_app; simpl; [reflexivity | exact IH]. Qed.

(** Replacing a pattern the string starts with removes it from the front. *)
Lemma replace_at_front (pat rest : string) : JS.replace (pat +:+ rest) pat "" = rest.
Proof.
  destruct pat as [|x pat].
  - string_app. destruct rest; reflexivity.
  - rewrite append_cons. cbn [JS.replace]. rewrite <- append_cons.
    rewrite prefix_append, slice_from_append. reflexivity.
Qed.

Lemma segments_not_nil (s : string) : Path.segments s <> [].
Proof.
  induction s as [|c s IH]; simpl; [discriminate|].
  destruct (Path.is_sep c); [discriminate|].
  destruct (Path.segments s); [congruence | discriminate].
Qed.

Lemma is_sep_true (c : ascii) : Path.is_sep c = true -> c = "/"%char.
Proof. unfold Path.is_sep, Path.sep. apply Ascii.eqb_eq. Qed.

Lemma unsegments_cons (x : string) (l : list string) :
  l <> [] -> Path.unsegments (x :: l) = x +:+ String Path.sep (Path.unsegments l).
Proof. destruct l; [congruence | reflexivity]. Qed.

Lemma unsegments_segments (s : string) : Path.unsegments (Path.segments s) = s.
Proof.
  induction s as [|c s IH]; [reflexivity|].
  pose proof (segments_not_nil s) as Hn.
  simpl. destruct (Path.is_sep c) eqn:E.
  - apply is_sep_true in E. subst c.
    rewrite unsegments_cons by exact Hn. now rewrite IH.
  - destruct (Path.segments s) as [|seg segs]; [congruence|].
    destruct segs as [|seg' segs].
    + unfold Path.unsegments in *. simpl in *. now rewrite IH.
    + rewrite unsegments_cons in * by discriminate.
      rewrite append_cons. now rewrite IH.
Qed.

Lemma segments_append_sep (a b : string) :
  Path.segments (a +:+ String Path.sep b) = Path.segments a ++ Path.segments b.
Proof.
  induction a as [|c a IH]; string_app.
  - reflexivity.
  - simpl. rewrite IH. destruct (Path.is_sep c); [reflexivity|].
    pose proof (segments_not_nil a) as Hn.
    destruct (Path.segments a); [congruence | reflexivity].
Qed.

Lemma unsegments_app (A B : list string) :
  A <> [] -> B <> [] ->
  Path.unsegments (A ++ B) = Path.unsegments A +:+ String Path.sep (Path.unsegments B).
Proof.
  intros HA HB.
  induction A as [|x A IH]; [congruence|].
  destruct A as [|y A].
  - simpl. now rewrite unsegments_cons.
  - change ((x :: y :: A) ++ B) with (x :: (y :: A) ++ B).
    rewrite unsegments_cons by discriminate.
    rewrite IH by discriminate.
    rewrite (unsegments_cons x (y :: A)) by discriminate.
    rewrite append_assoc. reflexivity.
Qed.

Lemma norm_step_plain (allow : bool) (stack : list string) (seg : string) :
  plain_segment seg = true -> Path.norm_step allow stack seg = seg :: stack.
Proof.
  unfold plain_segment, Path.norm_step. intros H.
  apply negb_true_iff in H. apply orb_false_iff in H as [H H2].
  now rewrite H, H2.
Qed.

Lemma fold_norm_step_plain (allow : bool) (segs stack : list string) :
  forallb plain_segment segs = true ->
  fold_left (Path.norm_step allow) segs stack = rev segs ++ stack.
Proof.
  revert stack. induction segs as [|seg segs IH]; intros stack H; [reflexivity|].
  simpl in H. apply andb_true_iff in H as [H1 H2].
  simpl. rewrite norm_step_plain by exact H1. rewrite IH by exact H2.
  now rewrite <- app_assoc.
Qed.

Lemma plain_not_empty (s : string) : plain s = true -> s <> "".
Proof. intros H ->. discriminate H. Qed.

Lemma plain_relative (s : string) : plain s = true -> Path.first_is_sep s = false.
Proof.
  destruct s as [|c s]; [reflexivity|].
  unfold plain. simpl. destruct (Path.is_sep c); [discriminate | reflexivity].
Qed.

Lemma segments_cons (c : ascii) (s : string) :
  Path.segments (String c s) =
  if Path.is_sep c then EmptyString :: Path.segments s
  else match Path.segments s with
       | seg :: segs => String c seg :: segs
       | [] => [String c EmptyString]
       end.
Proof. reflexivity. Qed.

Lemma last_is_sep_segments (s : string) :
  Path.last_is_sep s = true -> List.last (Path.segments s) "x" = "".
Proof.
  induction s as [|c s IH]; [discriminate|].
  intros H. destruct s as [|c' s'].
  - simpl in H. simpl. rewrite H. reflexivity.
  - assert (H' : Path.last_is_sep (String c' s') = true) by exact H.
    specialize (IH H'). clear H H'.
    remember (String c' s') as t eqn:Et.
    pose proof (unsegments_segments t) as U.
    rewrite segments_cons.
    destruct (Path.segments t) as [|seg [|seg' segs]].
    + discriminate IH.
    + simpl in IH. subst seg. unfold Path.unsegments in U. simpl in U. congruence.
    + destruct (Path.is_sep c); exact IH.
Qed.

Lemma forallb_last (f : string -> bool) (l : list string) (d : string) :
  l <> [] -> forallb f l = true -> f (List.last l d) = true.
Proof.
  induction l as [|x l IH]; [congruence|].
  intros _ H. simpl in H. apply andb_true_iff in H as [Hx Hl].
  destruct l as [|y l]; [exact Hx|].
  apply IH; [discriminate | exact Hl].
Qed.

Lemma plain_no_trailing_sep (s : string) : plain s = true -> Path.last_is_sep s = false.
Proof.
  intros H. destruct (Path.last_is_sep s) eqn:E; [|reflexivity].
  apply last_is_sep_segments in E.
  pose proof (forallb_last plain_segment (Path.segments s) "x" (segments_not_nil s) H) as L.
  rewrite E in L. discriminate L.
Qed.

Lemma last_is_sep_append (a b : string) :
  b <> "" -> Path.last_is_sep (a +:+ b) = Path.last_is_sep b.
Proof.
  intros Hb. induction a as [|c a IH]; [reflexivity|].
  rewrite append_cons. simpl. destruct (a +:+ b) eqn:E; [|exact IH].
  destruct a; string_app; [congruence | discriminate].
Qed.

Lemma eqb_append_sep_empty (a b : string) : String.eqb (a +:+ String Path.sep b) "" = false.
Proof. destruct a; reflexivity. Qed.

Lemma first_is_sep_append (a b : string) :
  a <> "" -> Path.first_is_sep (a +:+ b) = Path.first_is_sep a.
Proof. destruct a; [congruence | reflexivity]. Qed.


Lemma eqb_empty_false (s : string) : s <> "" -> String.eqb s "" = false.
Proof. intros H. apply String.eqb_neq. exact H. Qed.


(** The normal form of [root/rest] for a plain [rest]: the segments that
    normalizing [root] leaves, followed by those of [rest]. *)
Lemma normalize_onto (root rest : string) :
  root <> "" -> plain rest = true ->
  Path.normalize (root +:+ String Path.sep rest) =
  (if Path.first_is_sep root then "/" else "") +:+
  Path.unsegments
    (rev (fold_left (Path.norm_step (negb (Path.first_is_sep root)))
                    (Path.segments root) [])
     ++ Path.segments rest).
Proof.
  intros Hroot Hrest.
  pose proof (plain_not_empty _ Hrest) as Hne.
  unfold Path.normalize.
  rewrite eqb_append_sep_empty.
  rewrite first_is_sep_append by exact Hroot.
  rewrite last_is_sep_append by discriminate.
  assert (Hl : Path.last_is_sep (String Path.sep rest) = false).
  { destruct rest as [|c r]; [congruence|]. now apply plain_no_trailing_sep in Hrest. }
  rewrite Hl.
  unfold Path.normalizeString.
  rewrite segments_append_sep, fold_left_app.
  rewrite (fold_norm_step_plain _ (Path.segments rest)) by exact Hrest.
  rewrite rev_app_distr, rev_involutive.
  set (kept := rev (fold_left _ (Path.segments root) [])).
  assert (Hp : String.eqb (Path.unsegments (kept ++ Path.segments rest)) "" = false).
  { destruct kept as [|x kept'] eqn:Ek.
    - simpl. rewrite unsegments_segments. now apply eqb_empty_false.
    - rewrite unsegments_app by (try discriminate; apply segments_not_nil).
      apply eqb_append_sep_empty. }
  rewrite Hp. destruct (Path.first_is_sep root); reflexivity.
Qed.

Lemma join_two (root rest : string) :
  root <> "" -> rest <> "" ->
  Path.join [root; rest] = Path.normalize (root +:+ String Path.sep rest).
Proof.
  intros H1 H2. unfold Path.join. simpl.
  rewrite (eqb_empty_false root), (eqb_empty_false rest) by assumption.
  reflexivity.
Qed.


(** Joining two plain paths puts one separator between them. *)
Lemma join_plain (root rest : string) :
  plain root = true -> plain rest = true ->
  Path.join [root; rest] = root +:+ String Path.sep rest.
Proof.
  intros Hroot Hrest.
  rewrite join_two by now apply plain_not_empty.
  rewrite normalize_onto by (try apply plain_not_empty; assumption).
  rewrite plain_relative by exact Hroot.
  rewrite fold_norm_step_plain by exact Hroot.
  rewrite app_nil_r, rev_involutive, <- segments_append_sep.
  rewrite unsegments_segments. reflexivity.
Qed.


Lemma localPathOf_base (cfg : Config) (rest : string) :
  localPathOf cfg (S3_BASE_PREFIX cfg +:+ rest) = Path.join [DOWNLOAD_DIR cfg; rest].
Proof. unfold localPathOf. now rewrite replace_at_front. Qed.

(** ** Pagination *)

Section Pagination.

Variable cfg : Config.
Variable c : S3.Client.
Variable prefix : string.

Lemma truthy_next_more (response : S3.ListObjectsV2Output) (next : string) :
  S3.IsTruncated response = true ->
  S3.NextContinuationToken response = Some next ->
  next <> "" ->
  next_token response = Some next /\ JS.truthy (next_token response) = true.
Proof.
  intros Ht Hn Hne. unfold next_token. rewrite Ht, Hn. split; [reflexivity|].
  simpl. now rewrite eqb_empty_false.
Qed.

Lemma truthy_next_last (response : S3.ListObjectsV2Output) :
  S3.IsTruncated response = false -> JS.truthy (next_token response) = false.
Proof. intros Ht. unfold next_token. now rewrite Ht. Qed.

Lemma listAllFiles_loop_paged token pages ending :
  paged c (BUCKET_NAME cfg) prefix None token pages ending ->
  forall fuel acc,
    listAllFiles_loop cfg c fuel prefix acc token =
    match ending with
    | None =>
        if decide (length pages <= fuel)
        then Fulfilled (acc ++ concat (map keys_of pages))
        else Pending
    | Some e =>
        if decide (length pages < fuel) then Rejected e else Pending
    end.
Proof.
  induction 1 as [token e Hs | token response Hs Ht
                 | token response next rest ending Hs Ht Hn Hne Hrest IH];
    intros fuel acc.
  - destruct fuel as [|fuel]; simpl; [reflexivity|]. now rewrite Hs.
  - destruct fuel as [|fuel]; simpl; [reflexivity|].
    rewrite Hs, truthy_next_last by exact Ht.
    unfold keys_of. destruct (S3.Contents response); simpl; now rewrite ?app_nil_r.
  - destruct fuel as [|fuel]; simpl.
    { destruct ending; reflexivity. }
    rewrite Hs.
    destruct (truthy_next_more response next Ht Hn Hne) as [-> ->].
    rewrite IH.
    assert (Hacc : (match S3.Contents response with
                    | Some items => acc ++ map S3.Key items
                    | None => acc
                    end) = acc ++ keys_of response).
    { unfold keys_of. destruct (S3.Contents response); now rewrite ?app_nil_r. }
    rewrite Hacc, <- app_assoc.
    destruct ending; repeat case_decide; try reflexivity; lia.
Qed.

Lemma fold_set_add_map (items : list S3.CommonPrefix) (acc : list string) :
  fold_left (fun s item => set_add (S3.cp_Prefix item) s) items acc =
  fold_left (fun s x => set_add x s) (map S3.cp_Prefix items) acc.
Proof. revert acc. induction items as [|i items IH]; intros acc; simpl; auto. Qed.

Lemma listFolders_loop_paged token pages ending :
  paged c (BUCKET_NAME cfg) prefix (Some "/") token pages ending ->
  forall fuel acc,
    listFolders_loop cfg c fuel prefix acc token =
    match ending with
    | None =>
        if decide (length pages <= fuel)
        then Fulfilled (fold_left (fun s x => set_add x s)
                                  (concat (map prefixes_of pages)) acc)
        else Pending
    | Some e =>
        if decide (length pages < fuel) then Rejected e else Pending
    end.
Proof.
  induction 1 as [token e Hs | token response Hs Ht
                 | token response next rest ending Hs Ht Hn Hne Hrest IH];
    intros fuel acc.
  - destruct fuel as [|fuel]; simpl; [reflexivity|]. now rewrite Hs.
  - destruct fuel as [|fuel]; simpl; [reflexivity|].
    rewrite Hs, truthy_next_last by exact Ht.
    unfold prefixes_of. destruct (S3.CommonPrefixes response); simpl;
      now rewrite ?app_nil_r, ?fold_set_add_map.
  - destruct fuel as [|fuel]; simpl.
    { destruct ending; reflexivity. }
    rewrite Hs.
    destruct (truthy_next_more response next Ht Hn Hne) as [-> ->].
    rewrite IH, fold_left_app.
    assert (Hacc : (match S3.CommonPrefixes response with
                    | Some items =>
                        fold_left (fun s item => set_add (S3.cp_Prefix item) s) items acc
                    | None => acc
                    end) = fold_left (fun s x => set_add x s) (prefixes_of response) acc).
    { unfold prefixes_of. destruct (S3.CommonPrefixes response);
        now rewrite ?fold_set_add_map. }
    rewrite Hacc.
    destruct ending; repeat case_decide; try reflexivity; lia.
Qed.

End Pagination.

Lemma set_add_elem (x y : string) (s : list string) :
  y ∈ set_add x s <-> y = x \/ y ∈ s.
Proof.
  unfold set_add. case_decide as Hin.
  - split; [auto|]. intros [-> | H]; assumption.
  - rewrite elem_of_app, list_elem_of_singleton. tauto.
Qed.

Lemma set_add_NoDup (x : string) (s : list string) : NoDup s -> NoDup (set_add x s).
Proof.
  intros Hs. unfold set_add. case_decide as Hin; [exact Hs|].
  apply NoDup_app. split; [exact Hs|]. split.
  - intros y Hy Hy'. apply list_elem_of_singleton in Hy'. now subst.
  - apply NoDup_singleton.
Qed.

Lemma fold_set_add_spec (l acc : list string) :
  NoDup acc ->
  NoDup (fold_left (fun s x => set_add x s) l acc) /\
  forall y, y ∈ fold_left (fun s x => set_add x s) l acc <-> y ∈ l \/ y ∈ acc.
Proof.
  revert acc. induction l as [|x l IH]; intros acc Hacc; simpl.
  - split; [exact Hacc|]. intros y. rewrite elem_of_nil. tauto.
  - destruct (IH (set_add x acc) (set_add_NoDup x acc Hacc)) as [Hn He].
    split; [exact Hn|]. intros y. rewrite He, set_add_elem, elem_of_cons. tauto.
Qed.

(** [first_occurrences] removes the duplicates and nothing else. *)
Lemma first_occurrences_spec (l : list string) :
  NoDup (first_occurrences l) /\ forall y, y ∈ first_occurrences l <-> y ∈ l.
Proof.
  destruct (fold_set_add_spec l [] (NoDup_nil_2)) as [Hn He].
  split; [exact Hn|]. intros y. unfold first_occurrences. rewrite He, elem_of_nil. tauto.
Qed.

(** ** The file system *)

Lemma drop_while_length (f : ascii -> bool) (l : list ascii) :
  length (Path.drop_while f l) <= length l.
Proof. induction l as [|c l IH]; simpl; [lia|]. destruct (f c); simpl; lia. Qed.

Lemma drop_while_twice_length (f : ascii -> bool) (l : list ascii) :
  Path.drop_while (fun c => negb (f c)) (Path.drop_while f l) <> [] ->
  S (length (Path.drop_while (fun c => negb (f c)) (Path.drop_while f l))) <= length l.
Proof.
  induction l as [|c l IH]; simpl; [congruence|].
  destruct (f c) eqn:E.
  - intros H. specialize (IH H). lia.
  - simpl. rewrite E. simpl. intros _.
    pose proof (drop_while_length (fun c => negb (f c)) l). lia.
Qed.

Lemma length_list_ascii_of_string (s : string) :
  length (list_ascii_of_string s) = String.length s.
Proof. induction s as [|c s IH]; simpl; [reflexivity | now rewrite IH]. Qed.

Lemma length_string_of_list_ascii (l : list ascii) :
  String.length (string_of_list_ascii l) = length l.
Proof. induction l as [|c l IH]; simpl; [reflexivity | now rewrite IH]. Qed.

Lemma height_le (p : string) : height p <= S (String.length p).
Proof. unfold height. destruct (Fs.is_root p); lia. Qed.

Lemma is_root_inv (p : string) : Fs.is_root p = true -> p = "." \/ p = "/".
Proof.
  unfold Fs.is_root. intros H. apply orb_true_iff in H as [H|H];
    apply String.eqb_eq in H; auto.
Qed.

Lemma dirname_root (p : string) : Fs.is_root p = true -> Path.dirname p = p.
Proof. intros H. apply is_root_inv in H as [-> | ->]; reflexivity. Qed.

(** Away from the roots, [path.dirname] moves towards a root. *)
Lemma dirname_height (p : string) :
  Fs.is_root p = false -> height (Path.dirname p) < height p.
Proof.
  intros Hp. unfold height at 2. rewrite Hp.
  destruct p as [|c0 rest]; [unfold height; simpl; lia|].
  unfold Path.dirname.
  set (l := rev (list_ascii_of_string rest)).
  assert (Hl : length l = String.length rest).
  { unfold l. now rewrite length_rev, length_list_ascii_of_string. }
  pose proof (drop_while_twice_length Path.is_sep l) as H2.
  destruct (Path.drop_while (fun c => negb (Path.is_sep c)) (Path.drop_while Path.is_sep l))
    as [|x r3] eqn:E.
  - destruct (Path.is_sep c0); unfold height; simpl; lia.
  - specialize (H2 ltac:(discriminate)). simpl in H2.
    destruct r3 as [|y r3'].
    + assert (Hrest : 1 <= String.length rest) by lia.
      destruct (Path.is_sep c0).
      * (* "//": the segment that was cut has at least one character *)
        assert (2 <= length l); [|unfold height; simpl; lia].
        clear - E. induction l as [|c l IH]; [discriminate E|].
        simpl in E. destruct (Path.is_sep c) eqn:Ec.
        -- specialize (IH E). simpl. lia.
        -- simpl in E. rewrite Ec in E. simpl in E.
           pose proof (drop_while_length (fun c => negb (Path.is_sep c)) l) as D.
           rewrite E in D. simpl in *. lia.
      * pose proof (height_le (String c0 "")). simpl in *. lia.
    + pose proof (height_le (String c0 (string_of_list_ascii (rev (y :: r3'))))) as Hh.
      assert (Hlen : String.length (String c0 (string_of_list_ascii (rev (y :: r3'))))
                     = S (length (y :: r3'))).
      { cbn [String.length]. now rewrite length_string_of_list_ascii, length_rev. }
      rewrite Hlen in Hh. cbn [String.length]. simpl length in *. lia.
Qed.

Lemma stat_root (fs : gmap string Fs.node) (p : string) :
  Fs.is_root p = true -> Fs.stat fs p = Some Fs.Dir.
Proof. intros H. unfold Fs.stat. now rewrite H. Qed.

Lemma stat_none_not_root (fs : gmap string Fs.node) (p : string) :
  Fs.stat fs p = None -> Fs.is_root p = false.
Proof. unfold Fs.stat. destruct (Fs.is_root p); [discriminate | reflexivity]. Qed.

Lemma stat_insert (fs : gmap string Fs.node) (d p : string) (v : Fs.node) :
  Fs.stat (<[d := v]> fs) p =
  if Fs.is_root p then Some Fs.Dir else if decide (d = p) then Some v else Fs.stat fs p.
Proof.
  unfold Fs.stat. destruct (Fs.is_root p); [reflexivity|].
  rewrite lookup_insert. reflexivity.
Qed.

Lemma stat_insert_ne (fs : gmap string Fs.node) (d p : string) (v : Fs.node) :
  d <> p -> Fs.stat (<[d := v]> fs) p = Fs.stat fs p.
Proof.
  intros H. rewrite stat_insert. unfold Fs.stat.
  destruct (Fs.is_root p); [reflexivity|]. now rewrite decide_False.
Qed.

Lemma stat_insert_eq (fs : gmap string Fs.node) (d : string) (v : Fs.node) :
  Fs.is_root d = false -> Fs.stat (<[d := v]> fs) d = Some v.
Proof. intros H. rewrite stat_insert, H. now rewrite decide_True. Qed.

Lemma dirname_neq (p : string) : Fs.is_root p = false -> Path.dirname p <> p.
Proof. intros H E. apply dirname_height in H. rewrite E in H. lia. Qed.

Lemma extends_refl (fs : gmap string Fs.node) : extends fs fs.
Proof. intros p n H. exact H. Qed.

Lemma extends_trans (a b c : gmap string Fs.node) :
  extends a b -> extends b c -> extends a c.
Proof. intros H1 H2 p n H. apply H2, H1, H. Qed.

Lemma extends_insert (fs : gmap string Fs.node) (d : string) (v : Fs.node) :
  Fs.stat fs d = None -> extends fs (<[d := v]> fs).
Proof.
  intros H p n Hp. rewrite stat_insert_ne; [exact Hp|]. intros ->. congruence.
Qed.

(** Adding an entry whose parent is a directory keeps the tree a tree. *)
Lemma well_formed_insert (fs : gmap string Fs.node) (d : string) (v : Fs.node) :
  well_formed fs ->
  Fs.stat fs d = None ->
  Fs.stat fs (Path.dirname d) = Some Fs.Dir ->
  well_formed (<[d := v]> fs).
Proof.
  intros Hwf Hd Hparent p n Hp.
  pose proof (stat_none_not_root _ _ Hd) as Hroot.
  destruct (decide (d = p)) as [<-|Hne].
  - rewrite stat_insert_ne by (apply not_eq_sym; now apply dirname_neq). exact Hparent.
  - rewrite stat_insert_ne in Hp by exact Hne.
    specialize (Hwf p n Hp).
    destruct (decide (d = Path.dirname p)) as [E|E].
    + rewrite <- E in Hwf. congruence.
    + now rewrite stat_insert_ne.
Qed.

(** What [mkdirp] leaves untouched: everything at least as far from the
    roots as the directory asked for, that directory apart. *)
Lemma mkdirp_stat_other (n : nat) (fs fs' : gmap string Fs.node) (d p : string) :
  Fs.mkdirp n fs d = Some fs' -> height d < height p ->
  Fs.stat fs' p = Fs.stat fs p.
Proof.
  revert fs' d. induction n as [|n IH]; intros fs' d Hm Hh; simpl in Hm.
  - destruct (Fs.stat fs d) as [[|]|]; congruence.
  - destruct (Fs.stat fs d) as [[|]|] eqn:Hd; try congruence.
    destruct (Fs.mkdirp n fs (Path.dirname d)) as [fs''|] eqn:Hm'; [|discriminate].
    injection Hm as <-.
    pose proof (dirname_height d (stat_none_not_root _ _ Hd)) as Hlt.
    rewrite stat_insert_ne by (intros ->; lia).
    apply (IH fs'' (Path.dirname d) Hm'). lia.
Qed.

(** A successful [mkdirp] on a tree gives a tree that has the directory
    and everything that was there. *)
Lemma mkdirp_ok (n : nat) (fs fs' : gmap string Fs.node) (d : string) :
  well_formed fs -> Fs.mkdirp n fs d = Some fs' ->
  well_formed fs' /\ extends fs fs' /\ Fs.stat fs' d = Some Fs.Dir.
Proof.
  intros Hwf. revert fs' d. induction n as [|n IH]; intros fs' d Hm; simpl in Hm.
  - destruct (Fs.stat fs d) as [[|]|] eqn:Hd; try congruence.
    injection Hm as <-. auto using extends_refl.
  - destruct (Fs.stat fs d) as [[|]|] eqn:Hd; try congruence.
    { injection Hm as <-. auto using extends_refl. }
    destruct (Fs.mkdirp n fs (Path.dirname d)) as [fs''|] eqn:Hm'; [|discriminate].
    injection Hm as <-.
    destruct (IH fs'' (Path.dirname d) Hm') as (Hwf'' & Hext & Hdir).
    pose proof (stat_none_not_root _ _ Hd) as Hroot.
    assert (Hd'' : Fs.stat fs'' d = None).
    { rewrite (mkdirp_stat_other n fs fs'' (Path.dirname d) d Hm'); [exact Hd|].
      now apply dirname_height. }
    repeat split.
    + now apply well_formed_insert.
    + eapply extends_trans; [exact Hext|]. now apply extends_insert.
    + now apply stat_insert_eq.
Qed.

(** In a tree, below a file there is nothing: when [mkdirp] fails on [fs],
    it fails on every tree that extends [fs], and the directory is not
    there. *)
Lemma mkdirp_fails_again (n : nat) (fs fs2 : gmap string Fs.node) (d : string) :
  Fs.mkdirp n fs d = None -> height d <= n ->
  extends fs fs2 -> well_formed fs2 ->
  Fs.stat fs2 d <> Some Fs.Dir /\ Fs.mkdirp n fs2 d = None.
Proof.
  intros Hm Hh Hext Hwf. revert d Hm Hh.
  induction n as [|n IH]; intros d Hm Hh; simpl in Hm.
  - destruct (Fs.stat fs d) as [[c|]|] eqn:Hd; try congruence.
    + apply Hext in Hd. simpl. rewrite Hd. split; congruence.
    + apply stat_none_not_root in Hd. unfold height in Hh. rewrite Hd in Hh. lia.
  - destruct (Fs.stat fs d) as [[c|]|] eqn:Hd; try congruence.
    + apply Hext in Hd. simpl. rewrite Hd. split; congruence.
    + destruct (Fs.mkdirp n fs (Path.dirname d)) as [fs''|] eqn:Hm'; [discriminate|].
      pose proof (dirname_height d (stat_none_not_root _ _ Hd)) as Hlt.
      destruct (IH (Path.dirname d) Hm' ltac:(lia)) as [Hnd Hm2].
      assert (Hnot : Fs.stat fs2 d <> Some Fs.Dir).
      { intros Hdir. apply Hwf in Hdir. contradiction. }
      split; [exact Hnot|]. simpl.
      destruct (Fs.stat fs2 d) as [[c|]|]; [reflexivity | contradiction |].
      now rewrite Hm2.
Qed.

(** The bound that [mkdirSync_recursive] puts on the walk towards the root
    is never reached: any bound from the height of the directory on gives
    the same result. *)
Lemma mkdirp_bound (n m : nat) (fs : gmap string Fs.node) (d : string) :
  height d <= n -> height d <= m -> Fs.mkdirp n fs d = Fs.mkdirp m fs d.
Proof.
  revert m d. induction n as [|n IH]; intros m d Hn Hm.
  - assert (Hr : Fs.is_root d = true).
    { unfold height in Hn. destruct (Fs.is_root d); [reflexivity | lia]. }
    destruct m; simpl; now rewrite (stat_root fs d Hr).
  - destruct m as [|m].
    + assert (Hr : Fs.is_root d = true).
      { unfold height in Hm. destruct (Fs.is_root d); [reflexivity | lia]. }
      simpl. now rewrite (stat_root fs d Hr).
    + simpl. destruct (Fs.stat fs d) as [[|]|] eqn:Hd; try reflexivity.
      pose proof (dirname_height d (stat_none_not_root _ _ Hd)) as Hlt.
      rewrite (IH m (Path.dirname d)) by lia. reflexivity.
Qed.

(** ** [downloadFile] *)

Lemma existsSync_true (fs : gmap string Fs.node) (p : string) :
  Fs.existsSync fs p = true <-> Fs.stat fs p <> None.
Proof. unfold Fs.existsSync. destruct (Fs.stat fs p); split; congruence. Qed.

Lemma existsSync_false (fs : gmap string Fs.node) (p : string) :
  Fs.existsSync fs p = false <-> Fs.stat fs p = None.
Proof. unfold Fs.existsSync. destruct (Fs.stat fs p); split; congruence. Qed.

Section DownloadFile.

Variable cfg : Config.
Variable c : S3.Client.

Lemma downloadFile_present (key localPath : string) (w : World) :
  Fs.existsSync (files w) localPath = true ->
  downloadFile cfg c key localPath w = (Skipped, print key Skipped w).
Proof. intros H. unfold downloadFile. now rewrite H. Qed.

Lemma downloadFile_get_fails (key localPath : string) (w : World) (e : S3.Error) :
  Fs.existsSync (files w) localPath = false ->
  S3.send_get c {| S3.get_Bucket := BUCKET_NAME cfg; S3.get_Key := key |} = inl e ->
  downloadFile cfg c key localPath w = (Failed, print key Failed (sent_get key w)).
Proof. intros H Hg. unfold downloadFile. now rewrite H, Hg. Qed.

(** Every call prints one line, the key with the outcome it returns. *)
Lemma downloadFile_console (key localPath : string) (w : World) :
  console (snd (downloadFile cfg c key localPath w)) =
  console w ++ [(key, fst (downloadFile cfg c key localPath w))].
Proof.
  unfold downloadFile.
  destruct (Fs.existsSync (files w) localPath); [reflexivity|].
  destruct (S3.send_get c _) as [e|response]; [reflexivity|].
  destruct (if negb _ then _ else _) as [fs1|]; [|reflexivity].
  destruct (Fs.pipeline _ fs1 localPath) as [fs2 [|]]; reflexivity.
Qed.

(** The five ways through [downloadFile], by what they find and leave on
    a well-formed file system. *)
Lemma downloadFile_analysis (key localPath : string) (w : World) :
  well_formed (files w) ->
  let r := downloadFile cfg c key localPath w in
  let dir := Path.dirname localPath in
  (Fs.stat (files w) localPath <> None /\
   fst r = Skipped /\ files (snd r) = files w)
  \/
  (Fs.stat (files w) localPath = None /\
   (exists e, S3.send_get c {| S3.get_Bucket := BUCKET_NAME cfg; S3.get_Key := key |} = inl e) /\
   fst r = Failed /\ files (snd r) = files w)
  \/
  (Fs.stat (files w) localPath = None /\
   (exists content, Fs.stat (files w) dir = Some (Fs.File content)) /\
   fst r = Failed /\ files (snd r) = files w)
  \/
  (Fs.stat (files w) localPath = None /\
   Fs.stat (files w) dir = None /\
   Fs.mkdirSync_recursive (files w) dir = None /\
   fst r = Failed /\ files (snd r) = files w)
  \/
  (Fs.stat (files w) localPath = None /\
   exists response fs1,
     S3.send_get c {| S3.get_Bucket := BUCKET_NAME cfg; S3.get_Key := key |} = inr response /\
     well_formed fs1 /\ extends (files w) fs1 /\
     Fs.stat fs1 dir = Some Fs.Dir /\ Fs.stat fs1 localPath = None /\
     files (snd r) = <[localPath := Fs.File (S3.delivered (S3.Body response))]> fs1 /\
     fst r = if S3.ends_well (S3.Body response) then Downloaded else Failed).
Proof.
  intros Hwf r dir. subst r. unfold downloadFile. fold dir.
  destruct (Fs.existsSync (files w) localPath) eqn:Hex.
  { left. apply existsSync_true in Hex. auto. }
  apply existsSync_false in Hex. right.
  destruct (S3.send_get c {| S3.get_Bucket := BUCKET_NAME cfg; S3.get_Key := key |}) as [e|response] eqn:Hget.
  { left. eauto 6. }
  right. cbn [files sent_get].
  destruct (Fs.existsSync (files w) dir) eqn:Hdir; cbn [negb].
  - (* the directory is there, or a file is in its place *)
    apply existsSync_true in Hdir.
    unfold Fs.pipeline. fold dir.
    destruct (Fs.stat (files w) dir) as [[content|]|] eqn:Hd; [| |congruence].
    + left. simpl. eauto 6.
    + right. right. split; [exact Hex|].
      exists response, (files w). rewrite Hex.
      destruct (S3.ends_well (S3.Body response));
        simpl; auto 10 using extends_refl.
  - apply existsSync_false in Hdir.
    destruct (Fs.mkdirSync_recursive (files w) dir) as [fs1|] eqn:Hm.
    + right. right. split; [exact Hex|].
      unfold Fs.mkdirSync_recursive in Hm.
      destruct (mkdirp_ok _ _ _ _ Hwf Hm) as (Hwf1 & Hext & Hd1).
      assert (Hp1 : Fs.stat fs1 localPath = None).
      { rewrite (mkdirp_stat_other _ _ _ _ localPath Hm); [exact Hex|].
        apply dirname_height. now apply stat_none_not_root in Hex. }
      unfold Fs.pipeline. fold dir. rewrite Hd1, Hp1.
      exists response, fs1.
      destruct (S3.ends_well (S3.Body response)); simpl; auto 10.
    + right. left. simpl. auto.
Qed.

(** What keeps a download from happening: the file is there, or the
    object cannot be read, or a file is where the directory should be. *)
Lemma downloadFile_blocked (key localPath : string) (w : World) :
  Fs.stat (files w) localPath <> None \/
  (exists e, S3.send_get c {| S3.get_Bucket := BUCKET_NAME cfg; S3.get_Key := key |} = inl e) \/
  (exists content,
      Fs.stat (files w) (Path.dirname localPath) = Some (Fs.File content)) \/
  (Fs.stat (files w) (Path.dirname localPath) = None /\
   Fs.mkdirSync_recursive (files w) (Path.dirname localPath) = None) ->
  let r := downloadFile cfg c key localPath w in
  files (snd r) = files w /\ fst r <> Downloaded /\
  (Fs.stat (files w) localPath <> None -> fst r = Skipped).
Proof.
  intros Hb r. subst r. unfold downloadFile.
  destruct (Fs.existsSync (files w) localPath) eqn:Hex.
  { simpl. repeat split; congruence. }
  apply existsSync_false in Hex.
  destruct Hb as [Hb|Hb]; [congruence|].
  assert (Hskip : Fs.stat (files w) localPath <> None -> Failed = Skipped)
    by (intros; congruence).
  destruct (S3.send_get c {| S3.get_Bucket := BUCKET_NAME cfg; S3.get_Key := key |}) as [e|response] eqn:Hget.
  { simpl. repeat split; congruence. }
  destruct Hb as [[e He]|Hb]; [congruence|].
  cbn [files sent_get].
  destruct Hb as [[content Hd]|[Hd Hm]].
  - assert (Hthere : Fs.existsSync (files w) (Path.dirname localPath) = true).
    { apply existsSync_true. congruence. }
    rewrite Hthere. cbn [negb]. unfold Fs.pipeline. rewrite Hd.
    simpl. repeat split; congruence.
  - apply existsSync_false in Hd. rewrite Hd. cbn [negb]. rewrite Hm.
    simpl. repeat split; congruence.
Qed.

(** A call keeps the tree a tree and removes or changes nothing. *)
Lemma downloadFile_keeps (key localPath : string) (w : World) :
  well_formed (files w) ->
  well_formed (files (snd (downloadFile cfg c key localPath w))) /\
  extends (files w) (files (snd (downloadFile cfg c key localPath w))).
Proof.
  intros Hwf.
  destruct (downloadFile_analysis key localPath w Hwf)
    as [(_ & _ & ->)|[(_ & _ & _ & ->)|[(_ & _ & _ & ->)|[(_ & _ & _ & _ & ->)
       |(Hp & response & fs1 & _ & Hwf1 & Hext & Hd & Hp1 & -> & _)]]]];
    auto using extends_refl.
  split.
  - now apply well_formed_insert.
  - eapply extends_trans; [exact Hext|]. now apply extends_insert.
Qed.

(** The call repeated later, on any tree that still has what the first
    call left: nothing is downloaded, nothing changes, and what the first
    call downloaded or skipped is skipped. *)
Lemma downloadFile_again (key localPath : string) (w w2 : World) :
  well_formed (files w) ->
  well_formed (files w2) ->
  extends (files (snd (downloadFile cfg c key localPath w))) (files w2) ->
  let r := downloadFile cfg c key localPath w in
  let r2 := downloadFile cfg c key localPath w2 in
  files (snd r2) = files w2 /\ fst r2 <> Downloaded /\
  (fst r <> Failed -> fst r2 = Skipped).
Proof.
  intros Hwf Hwf2 Hext r r2. subst r r2.
  destruct (downloadFile_analysis key localPath w Hwf)
    as [(Hp & Ho & Hf)|[(Hp & He & Ho & Hf)|[(Hp & [content Hd] & Ho & Hf)
       |[(Hp & Hd & Hm & Ho & Hf)
       |(Hp & response & fs1 & Hget & Hwf1 & Hext1 & Hd & Hp1 & Hf & Ho)]]]];
    rewrite Hf in Hext.
  - assert (Hp2 : Fs.stat (files w2) localPath <> None).
    { destruct (Fs.stat (files w) localPath) as [n|] eqn:E; [|congruence].
      rewrite (Hext _ _ E). congruence. }
    destruct (downloadFile_blocked key localPath w2 (or_introl Hp2)) as (H1 & H2 & H3).
    auto.
  - destruct (downloadFile_blocked key localPath w2 (or_intror (or_introl He)))
      as (H1 & H2 & H3).
    rewrite Ho. repeat split; auto; congruence.
  - apply Hext in Hd.
    destruct (downloadFile_blocked key localPath w2
                (or_intror (or_intror (or_introl (ex_intro _ content Hd)))))
      as (H1 & H2 & H3).
    rewrite Ho. repeat split; auto; congruence.
  - unfold Fs.mkdirSync_recursive in Hm.
    destruct (mkdirp_fails_again _ _ (files w2) _ Hm (height_le _) Hext Hwf2)
      as [Hnd Hm2].
    assert (Hb : (exists content,
                     Fs.stat (files w2) (Path.dirname localPath) = Some (Fs.File content)) \/
                 (Fs.stat (files w2) (Path.dirname localPath) = None /\
                  Fs.mkdirSync_recursive (files w2) (Path.dirname localPath) = None)).
    { destruct (Fs.stat (files w2) (Path.dirname localPath)) as [[content|]|];
        [left; eauto | congruence | right; auto]. }
    destruct (downloadFile_blocked key localPath w2 (or_intror (or_intror Hb)))
      as (H1 & H2 & H3).
    rewrite Ho. repeat split; auto; congruence.
  - assert (Hp2 : Fs.stat (files w2) localPath <> None).
    { rewrite (Hext localPath (Fs.File (S3.delivered (S3.Body response)))); [congruence|].
      apply stat_insert_eq. now apply stat_none_not_root in Hp. }
    destruct (downloadFile_blocked key localPath w2 (or_introl Hp2)) as (H1 & H2 & H3).
    auto.
Qed.

End DownloadFile.

(** ** Loops *)

Section Loops.

Context {A : Type}.
Variable Rel : State -> State -> Prop.
Hypothesis Rel_refl : forall st, Rel st st.
Hypothesis Rel_trans : forall a b c, Rel a b -> Rel b c -> Rel a c.

Lemma for_each_respects (body : A -> State -> Run) (l : list A) :
  (forall x, respects Rel (body x)) -> respects Rel (for_each body l).
Proof.
  intros Hbody. induction l as [|x l IH]; intros st st' H; simpl in H.
  - injection H as <-. apply Rel_refl.
  - destruct (body x st) as [sta|e sta|] eqn:E.
    + apply (Rel_trans _ sta); [apply (Hbody x); now rewrite E | now apply IH].
    + apply (Hbody x). now rewrite E.
    + discriminate H.
Qed.

Lemma fold_left_respects (f : State -> A -> State) (l : list A) :
  (forall x st, Rel st (f st x)) -> forall st, Rel st (fold_left f l st).
Proof.
  intros Hf. induction l as [|x l IH]; intros st; simpl; [apply Rel_refl|].
  apply (Rel_trans _ (f st x)); [apply Hf | apply IH].
Qed.

End Loops.

(** ** The counters *)

Lemma lines_with_app (o : Outcome) (l1 l2 : list (string * Outcome)) :
  lines_with o (l1 ++ l2) = lines_with o l1 + lines_with o l2.
Proof. unfold lines_with. now rewrite List.filter_app, length_app. Qed.

Lemma lines_with_total (lines : list (string * Outcome)) :
  lines_with Downloaded lines + lines_with Skipped lines + lines_with Failed lines
  = length lines.
Proof.
  induction lines as [|[k o] lines IH]; [reflexivity|].
  change ((k, o) :: lines) with ([(k, o)] ++ lines).
  rewrite !lines_with_app, length_app. destruct o; simpl in *; lia.
Qed.

Lemma tallied_refl (st : State) : tallied st st.
Proof. exists []. rewrite app_nil_r. unfold lines_with. simpl. repeat split; lia. Qed.

Lemma tallied_trans (a b c : State) : tallied a b -> tallied b c -> tallied a c.
Proof.
  intros (l1 & Hc1 & Hd1 & Hs1 & Hf1) (l2 & Hc2 & Hd2 & Hs2 & Hf2).
  exists (l1 ++ l2). rewrite !lines_with_app, Hc2, Hc1, app_assoc.
  repeat split; lia.
Qed.

Lemma grown_refl (st : State) : grown st st.
Proof. unfold grown. repeat split; lia. Qed.

Lemma grown_trans (a b c : State) : grown a b -> grown b c -> grown a c.
Proof. unfold grown. intros (?&?&?&?&?) (?&?&?&?&?). repeat split; lia. Qed.

Section Counters.

Variable cfg : Config.
Variable c : S3.Client.
Variable fuel : nat.

(** One call of [downloadFile], one line, one counter. *)
Lemma fetch_step (fileKey : string) (st : State) :
  let o := fst (downloadFile cfg c fileKey (localPathOf cfg fileKey) (snd st)) in
  fetch cfg c fileKey st =
    (count o (fst st), snd (downloadFile cfg c fileKey (localPathOf cfg fileKey) (snd st)))
  /\ console (snd (fetch cfg c fileKey st)) = console (snd st) ++ [(fileKey, o)].
Proof.
  intros o. subst o. unfold fetch.
  pose proof (downloadFile_console cfg c fileKey (localPathOf cfg fileKey) (snd st)) as Hc.
  destruct (downloadFile cfg c fileKey (localPathOf cfg fileKey) (snd st)) as [o w'].
  split; [reflexivity | exact Hc].
Qed.

Lemma fetch_tallied (fileKey : string) (st : State) :
  tallied st (fetch cfg c fileKey st).
Proof.
  destruct (fetch_step fileKey st) as [E Hc].
  exists [(fileKey, fst (downloadFile cfg c fileKey (localPathOf cfg fileKey) (snd st)))].
  split; [exact Hc|]. rewrite E. cbn [fst]. unfold lines_with.
  destruct (fst (downloadFile cfg c fileKey (localPathOf cfg fileKey) (snd st)));
    simpl; repeat split; lia.
Qed.

Lemma fetch_grown (fileKey : string) (st : State) :
  grown st (fetch cfg c fileKey st).
Proof.
  destruct (fetch_step fileKey st) as [E _]. rewrite E. unfold grown. cbn [fst].
  destruct (fst (downloadFile cfg c fileKey (localPathOf cfg fileKey) (snd st)));
    simpl; repeat split; lia.
Qed.

Lemma counted_refl (st : State) : counted st st.
Proof. split; [apply tallied_refl | apply grown_refl]. Qed.

Lemma counted_trans (a b d : State) : counted a b -> counted b d -> counted a d.
Proof.
  intros [? ?] [? ?]. split; [eapply tallied_trans | eapply grown_trans]; eassumption.
Qed.

Lemma fetch_counted (fileKey : string) (st : State) :
  counted st (fetch cfg c fileKey st).
Proof. split; [apply fetch_tallied | apply fetch_grown]. Qed.

Lemma download_each_counted (actualFiles : list string) (st : State) :
  counted st (download_each cfg c actualFiles st).
Proof.
  unfold download_each.
  apply (fold_left_respects counted counted_refl counted_trans).
  intros x st0. apply fetch_counted.
Qed.

Lemma download_json_files_counted (subFolder : string) (st : State) :
  counted st (download_json_files cfg c subFolder st).
Proof.
  unfold download_json_files.
  apply (fold_left_respects counted counted_refl counted_trans).
  intros x st0. apply fetch_counted.
Qed.

Lemma download_folder_counted (subFolder targetFolder : string) :
  respects counted (download_folder cfg c fuel subFolder targetFolder).
Proof.
  intros st st' H. unfold download_folder in H.
  destruct (listAllFiles cfg c fuel _) as [found|e|]; [| |discriminate H].
  - destruct (Nat.eqb _ 0); injection H as <-;
      [apply counted_refl | apply download_each_counted].
  - injection H as <-. apply counted_refl.
Qed.

Lemma count_record_folder_counted (st : State) :
  counted st (count_record_folder (fst st), snd st).
Proof.
  split.
  - exists []. rewrite app_nil_r. unfold lines_with. simpl. repeat split; lia.
  - unfold grown. simpl. repeat split; lia.
Qed.

Lemma count_folder_counted (st : State) :
  counted st (count_folder (fst st), snd st).
Proof.
  split.
  - exists []. rewrite app_nil_r. unfold lines_with. simpl. repeat split; lia.
  - unfold grown. simpl. repeat split; lia.
Qed.

Lemma process_record_folder_counted (subFolder : string) :
  respects counted (process_record_folder cfg c fuel subFolder).
Proof.
  intros st st' H. unfold process_record_folder in H.
  eapply counted_trans; [apply count_record_folder_counted|].
  eapply counted_trans; [apply download_json_files_counted|].
  exact (for_each_respects counted counted_refl counted_trans
           (download_folder cfg c fuel subFolder) (FOLDERS_TO_DOWNLOAD cfg)
           (download_folder_counted subFolder) _ _ H).
Qed.

Lemma process_main_folder_counted (mainFolder : string) :
  respects counted (process_main_folder cfg c fuel mainFolder).
Proof.
  intros st st' H. unfold process_main_folder in H.
  destruct (listFolders cfg c fuel _) as [subFolders|e|]; [| |discriminate H].
  - destruct (Nat.eqb _ 0); [injection H as <-; apply counted_refl|].
    destruct (for_each _ subFolders st) as [sta|e sta|] eqn:E; [| |discriminate H].
    + injection H as <-.
      eapply counted_trans; [|apply count_folder_counted].
      apply (for_each_respects counted counted_refl counted_trans
               (process_record_folder cfg c fuel) subFolders
               process_record_folder_counted st sta).
      now rewrite E.
    + injection H as <-.
      apply (for_each_respects counted counted_refl counted_trans
               (process_record_folder cfg c fuel) subFolders
               process_record_folder_counted st sta).
      now rewrite E.
  - injection H as <-. apply counted_refl.
Qed.

Lemma main_loop_counted (mainFolders : list string) :
  respects counted (for_each (process_main_folder cfg c fuel) mainFolders).
Proof.
  apply (for_each_respects counted counted_refl counted_trans).
  apply process_main_folder_counted.
Qed.

End Counters.

Lemma for_each_pure {A : Type} (f : A -> State -> State) (l : list A) (st : State) :
  for_each (fun x => pure (f x)) l st = Completed (fold_left (fun st x => f x st) l st).
Proof. revert st. induction l as [|x l IH]; intros st; simpl; [reflexivity | apply IH]. Qed.

(** ** Running again *)

Lemma replays_refl (st st2 : State) : replays st st st2 st2.
Proof.
  repeat split. exists [], []. rewrite !app_nil_r. repeat split. constructor.
Qed.

Lemma replays_trans (st sta st1 st2 st2a st2' : State) :
  replays st sta st2 st2a -> replays sta st1 st2a st2' -> replays st st1 st2 st2'.
Proof.
  intros (Hf & Hd & la & la2 & Hc & Hc2 & Hl) (Hf' & Hd' & lb & lb2 & Hc' & Hc2' & Hl').
  split; [congruence|]. split; [congruence|].
  exists (la ++ lb), (la2 ++ lb2).
  rewrite Hc', Hc, Hc2', Hc2, !app_assoc. repeat split.
  now apply Forall2_app.
Qed.

Lemma for_each_repeatable {A : Type} (body : A -> State -> Run) (l : list A) :
  (forall x, repeatable (body x)) -> repeatable (for_each body l).
Proof.
  intros Hb. induction l as [|x l IH]; intros st st1 Hwf H.
  - simpl in H. injection H as <-.
    split; [exact Hwf|]. split; [apply extends_refl|].
    intros st2 Hwf2 Hext. exists st2. simpl.
    split; [reflexivity|]. split; [exact I | apply replays_refl].
  - simpl in H. destruct (body x st) as [sta|e sta|] eqn:E; [| |discriminate H].
    + destruct (Hb x st sta Hwf) as (Hwfa & Hexta & Hrep); [now rewrite E|].
      destruct (IH sta st1 Hwfa H) as (Hwf1 & Hext1 & Hrep1).
      split; [exact Hwf1|]. split; [eapply extends_trans; eassumption|].
      intros st2 Hwf2 Hext2.
      destruct (Hrep st2 Hwf2 (extends_trans _ _ _ Hext1 Hext2))
        as (st2a & Hend & Hsame & Hr).
      rewrite E in Hsame.
      destruct (body x st2) as [st2a'|e2 st2a'|] eqn:E2; simpl in Hsame; try contradiction.
      simpl in Hend. injection Hend as ->.
      assert (Hfiles : files (snd st2a) = files (snd st2)) by apply Hr.
      destruct (Hrep1 st2a) as (st2' & Hend' & Hsame' & Hr').
      { now rewrite Hfiles. }
      { now rewrite Hfiles. }
      exists st2'. simpl. rewrite E, E2.
      split; [exact Hend'|]. split; [exact Hsame'|].
      eapply replays_trans; eassumption.
    + injection H as <-.
      destruct (Hb x st sta Hwf) as (Hwfa & Hexta & Hrep); [now rewrite E|].
      split; [exact Hwfa|]. split; [exact Hexta|].
      intros st2 Hwf2 Hext2.
      destruct (Hrep st2 Hwf2 Hext2) as (st2a & Hend & Hsame & Hr).
      rewrite E in Hsame.
      destruct (body x st2) as [st2a'|e2 st2a'|] eqn:E2; simpl in Hsame; try contradiction.
      simpl in Hend. injection Hend as ->. subst e2.
      exists st2a. simpl. rewrite E, E2. simpl. auto.
Qed.

Lemma in_sequence_repeatable (bodies : list (State -> Run)) :
  Forall repeatable bodies -> repeatable (in_sequence bodies).
Proof.
  intros H. unfold in_sequence.
  assert (Hl : forall b, b ∈ bodies -> repeatable b).
  { intros b Hb. rewrite Forall_forall in H. now apply H. }
  clear H. induction bodies as [|b bodies IH]; intros st st1 Hwf H.
  - simpl in H. injection H as <-.
    split; [exact Hwf|]. split; [apply extends_refl|].
    intros st2 Hwf2 Hext. exists st2. simpl.
    split; [reflexivity|]. split; [exact I | apply replays_refl].
  - assert (Hb : repeatable b) by (apply Hl; left).
    assert (IH' : repeatable (for_each (fun body => body) bodies)).
    { apply IH. intros b' Hb'. apply Hl. now right. }
    clear IH Hl.
    simpl in H. destruct (b st) as [sta|e sta|] eqn:E; [| |discriminate H].
    + destruct (Hb st sta Hwf) as (Hwfa & Hexta & Hrep); [now rewrite E|].
      destruct (IH' sta st1 Hwfa H) as (Hwf1 & Hext1 & Hrep1).
      split; [exact Hwf1|]. split; [eapply extends_trans; eassumption|].
      intros st2 Hwf2 Hext2.
      destruct (Hrep st2 Hwf2 (extends_trans _ _ _ Hext1 Hext2))
        as (st2a & Hend & Hsame & Hr).
      rewrite E in Hsame.
      destruct (b st2) as [st2a'|e2 st2a'|] eqn:E2; simpl in Hsame; try contradiction.
      simpl in Hend. injection Hend as ->.
      assert (Hfiles : files (snd st2a) = files (snd st2)) by apply Hr.
      destruct (Hrep1 st2a) as (st2' & Hend' & Hsame' & Hr').
      { now rewrite Hfiles. }
      { now rewrite Hfiles. }
      exists st2'. simpl. rewrite E, E2.
      split; [exact Hend'|]. split; [exact Hsame'|].
      eapply replays_trans; eassumption.
    + injection H as <-.
      destruct (Hb st sta Hwf) as (Hwfa & Hexta & Hrep); [now rewrite E|].
      split; [exact Hwfa|]. split; [exact Hexta|].
      intros st2 Hwf2 Hext2.
      destruct (Hrep st2 Hwf2 Hext2) as (st2a & Hend & Hsame & Hr).
      rewrite E in Hsame.
      destruct (b st2) as [st2a'|e2 st2a'|] eqn:E2; simpl in Hsame; try contradiction.
      simpl in Hend. injection Hend as ->. subst e2.
      exists st2a. simpl. rewrite E, E2. simpl. auto.
Qed.

(** A step that only touches the folder counters. *)
Lemma pure_repeatable (f : State -> State) :
  (forall st, snd (f st) = snd st /\
              totalDownloaded (fst (f st)) = totalDownloaded (fst st)) ->
  repeatable (pure f).
Proof.
  intros Hf st st1 Hwf H. injection H as <-.
  destruct (Hf st) as [Hs Hd]. rewrite Hs.
  split; [exact Hwf|]. split; [apply extends_refl|].
  intros st2 Hwf2 Hext. exists (f st2). simpl.
  split; [reflexivity|]. split; [exact I|].
  destruct (Hf st2) as [Hs2 Hd2]. unfold replays. rewrite Hs2, Hs.
  repeat split; [exact Hd2|].
  exists [], []. rewrite !app_nil_r. repeat split. constructor.
Qed.

Lemma crash_repeatable (e : S3.Error) : repeatable (fun st => Crashed e st).
Proof.
  intros st st1 Hwf H. injection H as <-.
  split; [exact Hwf|]. split; [apply extends_refl|].
  intros st2 Hwf2 Hext. exists st2. simpl.
  split; [reflexivity|]. split; [reflexivity | apply replays_refl].
Qed.

Lemma unfinished_repeatable : repeatable (fun _ => Unfinished).
Proof. intros st st1 _ H. discriminate H. Qed.

Section Again.

Variable cfg : Config.
Variable c : S3.Client.
Variable fuel : nat.

Lemma fetch_repeatable (fileKey : string) : repeatable (pure (fetch cfg c fileKey)).
Proof.
  intros st st1 Hwf H. injection H as <-.
  destruct (fetch_step cfg c fileKey st) as [E Hc].
  destruct (downloadFile_keeps cfg c fileKey (localPathOf cfg fileKey) (snd st) Hwf)
    as [Hwf1 Hext1].
  rewrite E at 1 2. cbn [snd].
  split; [exact Hwf1|]. split; [exact Hext1|].
  intros st2 Hwf2 Hext2. exists (fetch cfg c fileKey st2).
  split; [reflexivity|]. split; [exact I|].
  rewrite E in Hext2. cbn [snd] in Hext2.
  destruct (downloadFile_again cfg c fileKey (localPathOf cfg fileKey) (snd st) (snd st2)
              Hwf Hwf2 Hext2) as (Hf2 & Hnd & Hsk).
  destruct (fetch_step cfg c fileKey st2) as [E2 Hc2].
  unfold replays. rewrite Hc, Hc2. rewrite E2 at 1 2. cbn [fst snd].
  split; [exact Hf2|]. split.
  - destruct (fst (downloadFile cfg c fileKey (localPathOf cfg fileKey) (snd st2)));
      [congruence | reflexivity | reflexivity].
  - eexists _, _. split; [reflexivity|]. split; [reflexivity|].
    constructor; [|constructor].
    unfold again. cbn [fst snd]. auto.
Qed.

Lemma download_each_repeatable (actualFiles : list string) :
  repeatable (pure (download_each cfg c actualFiles)).
Proof.
  intros st st1 Hwf H.
  pose proof (for_each_repeatable (fun x => pure (fetch cfg c x)) actualFiles
                fetch_repeatable st st1 Hwf) as R.
  rewrite for_each_pure in R. destruct (R H) as (H1 & H2 & H3).
  split; [exact H1|]. split; [exact H2|].
  intros st2 Hwf2 Hext2. destruct (H3 st2 Hwf2 Hext2) as (st2' & Ha & Hb & Hc).
  rewrite for_each_pure in Ha, Hb. exists st2'. auto.
Qed.

Lemma download_json_files_repeatable (subFolder : string) :
  repeatable (pure (download_json_files cfg c subFolder)).
Proof.
  intros st st1 Hwf H.
  pose proof (for_each_repeatable
                (fun jsonFile => pure (fetch cfg c (subFolder +:+ jsonFile)))
                (JSON_FILES_TO_DOWNLOAD cfg)
                (fun jsonFile => fetch_repeatable (subFolder +:+ jsonFile))
                st st1 Hwf) as R.
  rewrite for_each_pure in R. destruct (R H) as (H1 & H2 & H3).
  split; [exact H1|]. split; [exact H2|].
  intros st2 Hwf2 Hext2. destruct (H3 st2 Hwf2 Hext2) as (st2' & Ha & Hb & Hc).
  rewrite for_each_pure in Ha, Hb. exists st2'. auto.
Qed.

Lemma download_folder_repeatable (subFolder targetFolder : string) :
  repeatable (download_folder cfg c fuel subFolder targetFolder).
Proof.
  unfold download_folder.
  destruct (listAllFiles cfg c fuel _) as [found|e|].
  - destruct (Nat.eqb _ 0).
    + apply (pure_repeatable (fun st => st)). auto.
    + apply download_each_repeatable.
  - apply crash_repeatable.
  - apply unfinished_repeatable.
Qed.

Lemma process_record_folder_sequence (subFolder : string) (st : State) :
  process_record_folder cfg c fuel subFolder st =
  in_sequence
    [pure (fun st => (count_record_folder (fst st), snd st));
     pure (download_json_files cfg c subFolder);
     for_each (download_folder cfg c fuel subFolder) (FOLDERS_TO_DOWNLOAD cfg)]
    st.
Proof.
  unfold process_record_folder, in_sequence, pure. simpl.
  destruct (for_each _ (FOLDERS_TO_DOWNLOAD cfg) _); reflexivity.
Qed.

Lemma repeatable_ext (body body' : State -> Run) :
  (forall st, body st = body' st) -> repeatable body' -> repeatable body.
Proof.
  intros Heq R st st1 Hwf H. rewrite Heq in H.
  destruct (R st st1 Hwf H) as (H1 & H2 & H3).
  split; [exact H1|]. split; [exact H2|].
  intros st2 Hwf2 Hext2. destruct (H3 st2 Hwf2 Hext2) as (st2' & Ha & Hb & Hc).
  exists st2'. rewrite !Heq. auto.
Qed.

Lemma process_record_folder_repeatable (subFolder : string) :
  repeatable (process_record_folder cfg c fuel subFolder).
Proof.
  eapply repeatable_ext; [apply process_record_folder_sequence|].
  apply in_sequence_repeatable.
  apply List.Forall_cons; [|apply List.Forall_cons; [|apply List.Forall_cons; [|apply List.Forall_nil]]].
  - apply pure_repeatable. auto.
  - apply download_json_files_repeatable.
  - apply for_each_repeatable. intros x. apply download_folder_repeatable.
Qed.

Lemma process_main_folder_repeatable (mainFolder : string) :
  repeatable (process_main_folder cfg c fuel mainFolder).
Proof.
  unfold process_main_folder.
  destruct (listFolders cfg c fuel _) as [subFolders|e|].
  - destruct (Nat.eqb _ 0).
    + apply (pure_repeatable (fun st => st)). auto.
    + apply (repeatable_ext _
               (in_sequence [for_each (process_record_folder cfg c fuel) subFolders;
                             pure (fun st => (count_folder (fst st), snd st))])).
      * intros st. unfold in_sequence, pure. simpl.
        destruct (for_each _ subFolders st); reflexivity.
      * apply in_sequence_repeatable.
        apply List.Forall_cons; [|apply List.Forall_cons; [|apply List.Forall_nil]].
        -- apply for_each_repeatable. intros x. apply process_record_folder_repeatable.
        -- apply pure_repeatable. auto.
  - apply crash_repeatable.
  - apply unfinished_repeatable.
Qed.

Lemma main_loop_repeatable (mainFolders : list string) :
  repeatable (for_each (process_main_folder cfg c fuel) mainFolders).
Proof. apply for_each_repeatable. apply process_main_folder_repeatable. Qed.

End Again.

(** ** The folder counters *)

Lemma same_folders_refl (st : State) : same_folders st st.
Proof. split; reflexivity. Qed.

Lemma same_folders_trans (a b d : State) :
  same_folders a b -> same_folders b d -> same_folders a d.
Proof. unfold same_folders. intros [? ?] [? ?]. split; congruence. Qed.

Lemma for_each_sum {A : Type} (m : State -> nat) (g : A -> nat)
    (body : A -> State -> Run) (l : list A) :
  (forall x st st', body x st = Completed st' -> m st' = m st + g x) ->
  forall st st', for_each body l st = Completed st' -> m st' = m st + list_sum (map g l).
Proof.
  intros Hb. induction l as [|x l IH]; intros st st' H; simpl in H.
  - injection H as <-. simpl. lia.
  - destruct (body x st) as [sta|e sta|] eqn:E; try discriminate H.
    rewrite (IH sta st' H), (Hb x st sta E). simpl. lia.
Qed.

Lemma list_sum_ones {A : Type} (l : list A) : list_sum (map (fun _ => 1) l) = length l.
Proof. induction l as [|x l IH]; simpl; [reflexivity | now rewrite IH]. Qed.

Lemma list_sum_zeros {A : Type} (l : list A) : list_sum (map (fun _ => 0) l) = 0.
Proof. induction l as [|x l IH]; simpl; [reflexivity | exact IH]. Qed.

Lemma list_sum_indicator {A : Type} (f : A -> bool) (l : list A) :
  list_sum (map (fun x => if f x then 1 else 0) l) = length (List.filter f l).
Proof.
  induction l as [|x l IH]; simpl; [reflexivity|].
  destruct (f x); simpl; now rewrite IH.
Qed.

Section Folders.

Variable cfg : Config.
Variable c : S3.Client.
Variable fuel : nat.

Lemma fetch_same_folders (fileKey : string) (st : State) :
  same_folders st (fetch cfg c fileKey st).
Proof.
  destruct (fetch_step cfg c fileKey st) as [E _]. rewrite E.
  unfold same_folders. cbn [fst].
  destruct (fst (downloadFile cfg c fileKey (localPathOf cfg fileKey) (snd st)));
    split; reflexivity.
Qed.

Lemma download_folder_same_folders (subFolder targetFolder : string) :
  respects same_folders (download_folder cfg c fuel subFolder targetFolder).
Proof.
  intros st st' H. unfold download_folder in H.
  destruct (listAllFiles cfg c fuel _) as [found|e|]; [| |discriminate H].
  - destruct (Nat.eqb _ 0); injection H as <-; [apply same_folders_refl|].
    apply (fold_left_respects same_folders same_folders_refl same_folders_trans).
    intros x st0. apply fetch_same_folders.
  - injection H as <-. apply same_folders_refl.
Qed.

(** One record folder, one increment of [totalRecordFolders]. *)
Lemma process_record_folder_counts (subFolder : string) (st st' : State) :
  process_record_folder cfg c fuel subFolder st = Completed st' ->
  totalRecordFolders (fst st') = totalRecordFolders (fst st) + 1 /\
  totalFolders (fst st') = totalFolders (fst st) + 0.
Proof.
  intros H. unfold process_record_folder in H.
  assert (H1 : same_folders (count_record_folder (fst st), snd st)
                 (download_json_files cfg c subFolder
                    (count_record_folder (fst st), snd st))).
  { apply (fold_left_respects same_folders same_folders_refl same_folders_trans).
    intros x st0. apply fetch_same_folders. }
  assert (H2 : same_folders (download_json_files cfg c subFolder
                               (count_record_folder (fst st), snd st)) st').
  { apply (for_each_respects same_folders same_folders_refl same_folders_trans
             (download_folder cfg c fuel subFolder) (FOLDERS_TO_DOWNLOAD cfg)
             (download_folder_same_folders subFolder)).
    now rewrite H. }
  destruct (same_folders_trans _ _ _ H1 H2) as [Hf Hr].
  rewrite Hf, Hr. simpl. lia.
Qed.

(** A main folder counts in [totalFolders] when it has a record folder,
    and its record folders count in [totalRecordFolders]. *)
Lemma process_main_folder_counts (mainFolder : string) (st st' : State) :
  process_main_folder cfg c fuel mainFolder st = Completed st' ->
  totalFolders (fst st') =
    totalFolders (fst st) + (if has_record_folders cfg c fuel mainFolder then 1 else 0) /\
  totalRecordFolders (fst st') =
    totalRecordFolders (fst st) + length (record_folders cfg c fuel mainFolder).
Proof.
  intros H. unfold process_main_folder in H.
  unfold has_record_folders, record_folders.
  destruct (listFolders cfg c fuel _) as [subFolders|e|]; try discriminate H.
  destruct (Nat.eqb (length subFolders) 0) eqn:E0.
  - injection H as <-. apply Nat.eqb_eq in E0. rewrite E0. simpl. lia.
  - destruct (for_each _ subFolders st) as [sta|e sta|] eqn:E; try discriminate H.
    injection H as <-. simpl.
    pose proof (for_each_sum (fun s => totalFolders (fst s)) (fun _ => 0)
                  (process_record_folder cfg c fuel) subFolders
                  (fun x a b Hx => proj2 (process_record_folder_counts x a b Hx))
                  st sta E) as Hf.
    pose proof (for_each_sum (fun s => totalRecordFolders (fst s)) (fun _ => 1)
                  (process_record_folder cfg c fuel) subFolders
                  (fun x a b Hx => proj1 (process_record_folder_counts x a b Hx))
                  st sta E) as Hr.
    rewrite list_sum_zeros in Hf. rewrite list_sum_ones in Hr. simpl in *. lia.
Qed.

End Folders.

(** ** How the run ends *)

Lemma for_each_explained {A : Type} (c : S3.Client) (body : A -> State -> Run)
    (l : list A) :
  (forall x, explained c (body x)) -> explained c (for_each body l).
Proof.
  intros Hb. induction l as [|x l IH]; intros st e st' H; simpl in H; [discriminate H|].
  destruct (body x st) as [sta|e' sta|] eqn:E; try discriminate H.
  - now apply (IH sta e st').
  - injection H as <- <-. now apply (Hb x st e' sta).
Qed.

Lemma for_each_completes {A : Type} (body : A -> State -> Run) (l : list A) :
  (forall x, completes (body x)) -> completes (for_each body l).
Proof.
  intros Hb. induction l as [|x l IH]; intros st; simpl; [eauto|].
  destruct (Hb x st) as [sta ->]. apply IH.
Qed.

Section Ending.

Variable cfg : Config.
Variable c : S3.Client.
Variable fuel : nat.

Lemma listAllFiles_loop_rejected (n : nat) (prefix : string) (acc : list string)
    (token : option string) (e : S3.Error) :
  listAllFiles_loop cfg c n prefix acc token = Rejected e ->
  exists command, S3.send_list c command = inl e.
Proof.
  revert acc token. induction n as [|n IH]; intros acc token H; simpl in H;
    [discriminate H|].
  destruct (S3.send_list c _) as [e'|response] eqn:E.
  - injection H as <-. eauto.
  - destruct (JS.truthy _); [now apply IH in H | discriminate H].
Qed.

Lemma listFolders_loop_rejected (n : nat) (prefix : string) (acc : list string)
    (token : option string) (e : S3.Error) :
  listFolders_loop cfg c n prefix acc token = Rejected e ->
  exists command, S3.send_list c command = inl e.
Proof.
  revert acc token. induction n as [|n IH]; intros acc token H; simpl in H;
    [discriminate H|].
  destruct (S3.send_list c _) as [e'|response] eqn:E.
  - injection H as <-. eauto.
  - destruct (JS.truthy _); [now apply IH in H | discriminate H].
Qed.

Lemma download_folder_explained (subFolder targetFolder : string) :
  explained c (download_folder cfg c fuel subFolder targetFolder).
Proof.
  intros st e st' H. unfold download_folder in H.
  destruct (listAllFiles cfg c fuel _) as [found|e'|] eqn:E; try discriminate H.
  - destruct (Nat.eqb _ 0); discriminate H.
  - injection H as <- <-. now apply listAllFiles_loop_rejected in E.
Qed.

Lemma process_record_folder_explained (subFolder : string) :
  explained c (process_record_folder cfg c fuel subFolder).
Proof.
  intros st e st' H. unfold process_record_folder in H.
  revert H. apply for_each_explained. intros x. apply download_folder_explained.
Qed.

Lemma process_main_folder_explained (mainFolder : string) :
  explained c (process_main_folder cfg c fuel mainFolder).
Proof.
  intros st e st' H. unfold process_main_folder in H.
  destruct (listFolders cfg c fuel _) as [subFolders|e'|] eqn:E; try discriminate H.
  - destruct (Nat.eqb _ 0); [discriminate H|].
    destruct (for_each _ subFolders st) as [sta|e' sta|] eqn:E'; try discriminate H.
    injection H as <- <-. revert E'. apply for_each_explained.
    intros x. apply process_record_folder_explained.
  - injection H as <- <-. now apply listFolders_loop_rejected in E.
Qed.

Hypothesis Hlist : listings_succeed cfg c fuel.

Lemma listAllFiles_fulfilled (prefix : string) :
  exists found, listAllFiles cfg c fuel prefix = Fulfilled found.
Proof.
  destruct (Hlist prefix None) as (pages & Hp & Hlen).
  unfold listAllFiles. rewrite (listAllFiles_loop_paged cfg c prefix _ _ _ Hp).
  rewrite decide_True by exact Hlen. eauto.
Qed.

Lemma listFolders_fulfilled (prefix : string) :
  exists found, listFolders cfg c fuel prefix = Fulfilled found.
Proof.
  destruct (Hlist prefix (Some "/")) as (pages & Hp & Hlen).
  unfold listFolders. rewrite (listFolders_loop_paged cfg c prefix _ _ _ Hp).
  rewrite decide_True by exact Hlen. eauto.
Qed.

Lemma download_folder_completes (subFolder targetFolder : string) :
  completes (download_folder cfg c fuel subFolder targetFolder).
Proof.
  intros st. unfold download_folder.
  destruct (listAllFiles_fulfilled (subFolder +:+ targetFolder)) as [found ->].
  destruct (Nat.eqb _ 0); eauto.
Qed.

Lemma process_record_folder_completes (subFolder : string) :
  completes (process_record_folder cfg c fuel subFolder).
Proof.
  intros st. unfold process_record_folder.
  apply for_each_completes. intros x. apply download_folder_completes.
Qed.

Lemma process_main_folder_completes (mainFolder : string) :
  completes (process_main_folder cfg c fuel mainFolder).
Proof.
  intros st. unfold process_main_folder.
  destruct (listFolders_fulfilled (S3_BASE_PREFIX cfg +:+ mainFolder +:+ "/"))
    as [subFolders ->].
  destruct (Nat.eqb _ 0); [eauto|].
  destruct (for_each_completes (process_record_folder cfg c fuel) subFolders
              process_record_folder_completes st) as [sta ->].
  eauto.
Qed.

End Ending.

(** ** What the download loops attempt *)

Lemma fetch_all_attempted (cfg : Config) (c : S3.Client) (keys : list string)
    (st : State) :
  exists lines,
    console (snd (fold_left (fun st k => fetch cfg c k st) keys st))
      = console (snd st) ++ lines /\
    map fst lines = keys /\
    tallied st (fold_left (fun st k => fetch cfg c k st) keys st).
Proof.
  revert st. induction keys as [|k keys IH]; intros st; simpl.
  - exists []. rewrite app_nil_r. repeat split. apply tallied_refl.
  - destruct (IH (fetch cfg c k st)) as (lines & Hc & Hk & Ht).
    destruct (fetch_step cfg c k st) as [_ Hc1].
    eexists (_ :: lines). rewrite Hc, Hc1, <- app_assoc. simpl.
    split; [reflexivity|]. split; [now rewrite Hk|].
    eapply tallied_trans; [apply fetch_tallied | exact Ht].
Qed.

Lemma tallied_total (st st' : State) :
  tallied st st' ->
  totalDownloaded (fst st') + totalSkipped (fst st') + totalFailed (fst st') +
    length (console (snd st))
  = totalDownloaded (fst st) + totalSkipped (fst st) + totalFailed (fst st) +
    length (console (snd st')).
Proof.
  intros (lines & Hc & Hd & Hs & Hf). rewrite Hc, length_app.
  pose proof (lines_with_total lines). lia.
Qed.

Lemma well_formed_empty : well_formed ∅.
Proof.
  intros p n H. unfold Fs.stat in *.
  destruct (Fs.is_root p) eqn:E.
  - now rewrite (dirname_root p E), E.
  - rewrite lookup_empty in H. discriminate H.
Qed.

Lemma again_counts (lines lines2 : list (string * Outcome)) :
  Forall2 again lines lines2 ->
  lines_with Downloaded lines2 = 0 /\
  lines_with Downloaded lines + lines_with Skipped lines <= lines_with Skipped lines2 /\
  length lines = length lines2.
Proof.
  induction 1 as [|[k o] [k2 o2] l l2 (Hk & Hnd & Hsk) Hl IH];
    [unfold lines_with; simpl; repeat split; lia|].
  change ((k, o) :: l) with ([(k, o)] ++ l).
  change ((k2, o2) :: l2) with ([(k2, o2)] ++ l2).
  rewrite !lines_with_app, !length_app. destruct IH as (I1 & I2 & I3).
  simpl in Hnd, Hsk.
  destruct o2; [congruence| |];
    destruct o; unfold lines_with in *; simpl in *;
      try (specialize (Hsk ltac:(discriminate)); discriminate Hsk);
      repeat split; lia.
Qed.

(** * The claims *)

(** C1: the local path of a key that begins with the base prefix is
    [path.join] of the download directory and the remainder of the key
    (the prefix is removed from the front, the remainder is joined on with
    the separator); for a plain download directory and a plain remainder
    this is the directory, one separator and the remainder, character by
    character; and the key [base/a/b/c.json] with base prefix [base/] and
    local root [out] gives [out/a/b/c.json]. *)
Theorem C1_local_path_derivation (cfg : Config) (rest : string) :
  localPathOf cfg (S3_BASE_PREFIX cfg +:+ rest) = Path.join [DOWNLOAD_DIR cfg; rest]
  /\ (plain (DOWNLOAD_DIR cfg) = true -> plain rest = true ->
      localPathOf cfg (S3_BASE_PREFIX cfg +:+ rest)
      = DOWNLOAD_DIR cfg +:+ "/" +:+ rest)
  /\ (S3_BASE_PREFIX cfg = "base/" -> DOWNLOAD_DIR cfg = "out" ->
      localPathOf cfg "base/a/b/c.json" = "out/a/b/c.json").
Proof.
  split; [apply localPathOf_base|]. split.
  - intros Hroot Hrest. rewrite localPathOf_base. now apply join_plain.
  - intros Hb Hd. unfold localPathOf. rewrite Hb, Hd. reflexivity.
Qed.

Lemma C1_local_path_derivation_witness :
  plain "out" = true /\ plain "folder1/rec-1/metadata.json" = true /\
  localPathOf sample_config "base/folder1/rec-1/metadata.json"
  = "out/folder1/rec-1/metadata.json" /\
  localPathOf sample_config "base/a/b/c.json" = "out/a/b/c.json".
Proof.
  split; [reflexivity|]. split; [reflexivity|].
  destruct (C1_local_path_derivation sample_config "folder1/rec-1/metadata.json")
    as (_ & Hplain & Hex).
  split.
  - exact (Hplain eq_refl eq_refl).
  - exact (Hex eq_refl eq_refl).
Defined.




(** C3: when the provider answers a listing in pages linked by continuation
    tokens, [listAllFiles] returns the keys of all pages, page after page
    and in the order given, with nothing filtered, and [listFolders] returns
    the common prefixes of all pages without duplicates; both return only
    after the page that is not truncated (with fewer requests than pages
    there is no result yet), and when a request fails after some pages the
    call is rejected and the pages read so far are not returned. *)
Theorem C3_pagination_complete (cfg : Config) (c : S3.Client) (prefix : string)
    (pages : list S3.ListObjectsV2Output) (fuel : nat) :
  (paged c (BUCKET_NAME cfg) prefix None None pages None ->
   (length pages <= fuel ->
    listAllFiles cfg c fuel prefix = Fulfilled (concat (map keys_of pages))) /\
   (fuel < length pages -> listAllFiles cfg c fuel prefix = Pending))
  /\
  (paged c (BUCKET_NAME cfg) prefix (Some "/") None pages None ->
   (length pages <= fuel ->
    listFolders cfg c fuel prefix
      = Fulfilled (first_occurrences (concat (map prefixes_of pages))) /\
    NoDup (first_occurrences (concat (map prefixes_of pages))) /\
    forall x, x ∈ first_occurrences (concat (map prefixes_of pages))
              <-> x ∈ concat (map prefixes_of pages)) /\
   (fuel < length pages -> listFolders cfg c fuel prefix = Pending))
  /\
  (forall e, paged c (BUCKET_NAME cfg) prefix None None pages (Some e) ->
             length pages < fuel -> listAllFiles cfg c fuel prefix = Rejected e)
  /\
  (forall e, paged c (BUCKET_NAME cfg) prefix (Some "/") None pages (Some e) ->
             length pages < fuel -> listFolders cfg c fuel prefix = Rejected e).
Proof.
  split; [|split; [|split]].
  - intros Hp. unfold listAllFiles.
    rewrite (listAllFiles_loop_paged cfg c prefix _ _ _ Hp). simpl.
    split; intros H; case_decide; try reflexivity; lia.
  - intros Hp. unfold listFolders.
    rewrite (listFolders_loop_paged cfg c prefix _ _ _ Hp).
    split.
    + intros H. rewrite decide_True by exact H.
      destruct (first_occurrences_spec (concat (map prefixes_of pages))) as [Hn He].
      split; [reflexivity|]. split; [exact Hn | exact He].
    + intros H. rewrite decide_False by lia. reflexivity.
  - intros e Hp H. unfold listAllFiles.
    rewrite (listAllFiles_loop_paged cfg c prefix _ _ _ Hp).
    now rewrite decide_True by exact H.
  - intros e Hp H. unfold listFolders.
    rewrite (listFolders_loop_paged cfg c prefix _ _ _ Hp).
    now rewrite decide_True by exact H.
Qed.

Lemma sample_photos_paged :
  paged sample_client "bucket" "base/folder1/rec-1/photos/" None None
        [photos_page1; photos_page2] None.
Proof.
  eapply paged_more; [reflexivity | reflexivity | reflexivity | discriminate |].
  apply paged_last; reflexivity.
Qed.

Lemma sample_folders_paged :
  paged sample_client "bucket" "base/folder1/" (Some "/") None
        [folders_page1; folders_page2] None.
Proof.
  eapply paged_more; [reflexivity | reflexivity | reflexivity | discriminate |].
  apply paged_last; reflexivity.
Qed.

Lemma C3_pagination_complete_witness :
  listAllFiles sample_config sample_client 2 "base/folder1/rec-1/photos/"
  = Fulfilled ["base/folder1/rec-1/photos/";
               "base/folder1/rec-1/photos/img1.jpg";
               "base/folder1/rec-1/photos//img1.jpg"]
  /\ listAllFiles sample_config sample_client 1 "base/folder1/rec-1/photos/" = Pending
  /\ listFolders sample_config sample_client 2 "base/folder1/"
     = Fulfilled ["base/folder1/rec-1/"; "base/folder1/rec-2/"]
  /\ listFolders sample_config denied_client 1 "base/folder1/" = Rejected "AccessDenied".
Proof.
  split; [|split; [|split]].
  - apply (C3_pagination_complete sample_config sample_client
             "base/folder1/rec-1/photos/" [photos_page1; photos_page2] 2).
    + exact sample_photos_paged.
    + simpl. lia.
  - apply (C3_pagination_complete sample_config sample_client
             "base/folder1/rec-1/photos/" [photos_page1; photos_page2] 1).
    + exact sample_photos_paged.
    + simpl. lia.
  - apply (C3_pagination_complete sample_config sample_client
             "base/folder1/" [folders_page1; folders_page2] 2).
    + exact sample_folders_paged.
    + simpl. lia.
  - apply (C3_pagination_complete sample_config denied_client "base/folder1/" [] 1).
    + apply paged_fails. reflexivity.
    + simpl. lia.
Defined.

(** C6: when something exists at the local path, a file of any content or
    a directory, [downloadFile] returns ['skipped'], sends no [GetObject]
    request and leaves the files as they are; the call does not depend on
    the bucket at all. *)
Theorem C6_existing_path_is_skipped (cfg : Config) (c : S3.Client)
    (key localPath : string) (w : World) (node : Fs.node) :
  Fs.stat (files w) localPath = Some node ->
  fst (downloadFile cfg c key localPath w) = Skipped /\
  gets (snd (downloadFile cfg c key localPath w)) = gets w /\
  files (snd (downloadFile cfg c key localPath w)) = files w /\
  forall c', downloadFile cfg c' key localPath w = downloadFile cfg c key localPath w.
Proof.
  intros H.
  assert (Hex : Fs.existsSync (files w) localPath = true).
  { apply existsSync_true. congruence. }
  rewrite (downloadFile_present cfg c key localPath w Hex).
  repeat split. intros c'. apply downloadFile_present. exact Hex.
Qed.

Lemma C6_existing_path_is_skipped_witness :
  fst (downloadFile sample_config denied_client "base/folder1/rec-2/metadata.json"
         "out/folder1/rec-2/metadata.json" (snd sample_final)) = Skipped /\
  gets (snd (downloadFile sample_config denied_client "base/folder1/rec-2/metadata.json"
               "out/folder1/rec-2/metadata.json" (snd sample_final)))
  = gets (snd sample_final).
Proof.
  destruct (C6_existing_path_is_skipped sample_config denied_client
              "base/folder1/rec-2/metadata.json" "out/folder1/rec-2/metadata.json"
              (snd sample_final) (Fs.File "{")) as (H1 & H2 & _).
  - vm_compute. reflexivity.
  - split; [exact H1 | exact H2].
Defined.

(** C10: when nothing exists at the local path and the [GetObject] request
    fails, [downloadFile] returns [false] and the local files are exactly
    what they were: no file and no directory has been created. *)
Theorem C10_failed_read_leaves_files (cfg : Config) (c : S3.Client)
    (key localPath : string) (w : World) (e : S3.Error) :
  Fs.existsSync (files w) localPath = false ->
  S3.send_get c {| S3.get_Bucket := BUCKET_NAME cfg; S3.get_Key := key |} = inl e ->
  fst (downloadFile cfg c key localPath w) = Failed /\
  files (snd (downloadFile cfg c key localPath w)) = files w.
Proof.
  intros Hex Hget.
  rewrite (downloadFile_get_fails cfg c key localPath w e Hex Hget).
  split; reflexivity.
Qed.

Lemma C10_failed_read_leaves_files_witness :
  fst (downloadFile sample_config sample_client "base/folder1/rec-1/config.json"
         "out/folder1/rec-1/config.json" empty_world) = Failed /\
  files (snd (downloadFile sample_config sample_client "base/folder1/rec-1/config.json"
                "out/folder1/rec-1/config.json" empty_world)) = ∅.
Proof.
  apply (C10_failed_read_leaves_files sample_config sample_client
           "base/folder1/rec-1/config.json" "out/folder1/rec-1/config.json"
           empty_world "NoSuchKey"); reflexivity.
Defined.

(** C2: [downloadFile] always returns.  When nothing exists at the local
    path, a failed [GetObject] request, a [mkdirSync] that throws, and a
    pipeline that is rejected (the file cannot be opened, or the stream
    breaks) each make it return [false].  The download loops go on after
    any outcome: a loop over keys, one of which fails, is the loop over the
    keys before it, that key, and the loop over the keys after it; every
    key gets its call of [downloadFile], in order, and every call is
    counted. *)
Theorem C2_fetch_errors_are_contained (cfg : Config) (c : S3.Client) :
  (forall key localPath w,
     Fs.existsSync (files w) localPath = false ->
     (forall e,
        S3.send_get c {| S3.get_Bucket := BUCKET_NAME cfg; S3.get_Key := key |} = inl e ->
        fst (downloadFile cfg c key localPath w) = Failed)
     /\
     (forall response,
        S3.send_get c {| S3.get_Bucket := BUCKET_NAME cfg; S3.get_Key := key |}
          = inr response ->
        Fs.existsSync (files w) (Path.dirname localPath) = false ->
        Fs.mkdirSync_recursive (files w) (Path.dirname localPath) = None ->
        fst (downloadFile cfg c key localPath w) = Failed)
     /\
     (forall response fs1,
        S3.send_get c {| S3.get_Bucket := BUCKET_NAME cfg; S3.get_Key := key |}
          = inr response ->
        (if negb (Fs.existsSync (files w) (Path.dirname localPath))
         then Fs.mkdirSync_recursive (files w) (Path.dirname localPath)
         else Some (files w)) = Some fs1 ->
        snd (Fs.pipeline (S3.Body response) fs1 localPath) = false ->
        fst (downloadFile cfg c key localPath w) = Failed))
  /\
  (forall before key after st,
     fst (downloadFile cfg c key (localPathOf cfg key)
            (snd (download_each cfg c before st))) = Failed ->
     download_each cfg c (before ++ key :: after) st
     = download_each cfg c after (fetch cfg c key (download_each cfg c before st)))
  /\
  (forall actualFiles st,
     exists lines,
       console (snd (download_each cfg c actualFiles st)) = console (snd st) ++ lines /\
       map fst lines = actualFiles /\
       totalDownloaded (fst (download_each cfg c actualFiles st))
       + totalSkipped (fst (download_each cfg c actualFiles st))
       + totalFailed (fst (download_each cfg c actualFiles st))
       = totalDownloaded (fst st) + totalSkipped (fst st) + totalFailed (fst st)
         + length actualFiles)
  /\
  (forall subFolder st,
     exists lines,
       console (snd (download_json_files cfg c subFolder st)) = console (snd st) ++ lines /\
       map fst lines = map (fun jsonFile => subFolder +:+ jsonFile)
                           (JSON_FILES_TO_DOWNLOAD cfg) /\
       totalDownloaded (fst (download_json_files cfg c subFolder st))
       + totalSkipped (fst (download_json_files cfg c subFolder st))
       + totalFailed (fst (download_json_files cfg c subFolder st))
       = totalDownloaded (fst st) + totalSkipped (fst st) + totalFailed (fst st)
         + length (JSON_FILES_TO_DOWNLOAD cfg)).
Proof.
  split; [|split; [|split]].
  - intros key localPath w Hex. split; [|split].
    + intros e Hget. now rewrite (downloadFile_get_fails cfg c key localPath w e Hex Hget).
    + intros response Hget Hdir Hm. unfold downloadFile.
      rewrite Hex, Hget. cbn [files sent_get]. rewrite Hdir. cbn [negb]. now rewrite Hm.
    + intros response fs1 Hget Hmade Hpipe. unfold downloadFile.
      rewrite Hex, Hget. cbn [files sent_get]. rewrite Hmade.
      destruct (Fs.pipeline (S3.Body response) fs1 localPath) as [fs2 ok].
      simpl in Hpipe. now subst ok.
  - intros before key after st _. unfold download_each.
    now rewrite fold_left_app.
  - intros actualFiles st. unfold download_each.
    destruct (fetch_all_attempted cfg c actualFiles st) as (lines & Hc & Hk & Ht).
    exists lines. split; [exact Hc|]. split; [exact Hk|].
    apply tallied_total in Ht. rewrite Hc, length_app in Ht.
    assert (Hl : length lines = length actualFiles).
    { rewrite <- (length_map fst lines). now rewrite Hk. }
    lia.
  - intros subFolder st. unfold download_json_files.
    assert (E : forall l s0,
               fold_left (fun st jsonFile => fetch cfg c (subFolder +:+ jsonFile) st) l s0
               = fold_left (fun st k => fetch cfg c k st)
                           (map (fun jsonFile => subFolder +:+ jsonFile) l) s0).
    { induction l as [|x l IH]; intros s0; simpl; [reflexivity | apply IH]. }
    rewrite E.
    destruct (fetch_all_attempted cfg c
                (map (fun jsonFile => subFolder +:+ jsonFile) (JSON_FILES_TO_DOWNLOAD cfg)) st)
      as (lines & Hc & Hk & Ht).
    exists lines. split; [exact Hc|]. split; [exact Hk|].
    apply tallied_total in Ht. rewrite Hc, length_app in Ht.
    assert (Hl : length lines = length (JSON_FILES_TO_DOWNLOAD cfg)).
    { rewrite <- (length_map fst lines), Hk. apply length_map. }
    lia.
Qed.

Lemma C2_fetch_errors_are_contained_witness :
  fst (downloadFile sample_config sample_client "base/folder1/rec-1/config.json"
         "out/folder1/rec-1/config.json" empty_world) = Failed /\
  download_each sample_config sample_client
    ["base/folder1/rec-1/metadata.json";
     "base/folder1/rec-1/config.json";
     "base/folder1/rec-1/photos/img1.jpg"]
    (no_stats, empty_world)
  = download_each sample_config sample_client
      ["base/folder1/rec-1/photos/img1.jpg"]
      (fetch sample_config sample_client "base/folder1/rec-1/config.json"
         (download_each sample_config sample_client
            ["base/folder1/rec-1/metadata.json"] (no_stats, empty_world))).
Proof.
  destruct (C2_fetch_errors_are_contained sample_config sample_client)
    as (Hfail & Hsplit & _).
  split.
  - destruct (Hfail "base/folder1/rec-1/config.json" "out/folder1/rec-1/config.json"
                empty_world eq_refl) as [Hget _].
    exact (Hget "NoSuchKey" eq_refl).
  - refine (Hsplit ["base/folder1/rec-1/metadata.json"]
              "base/folder1/rec-1/config.json"
              ["base/folder1/rec-1/photos/img1.jpg"] (no_stats, empty_world) _).
    vm_compute. reflexivity.
Defined.

(** C5: every call of [downloadFile] in the run moves exactly one of the
    three download counters up by one and prints one line; over any
    stretch of the run that ends, the counters move in step with the lines
    printed and no counter goes down; and when [downloadFromS3] ends, the
    three counters add up to the number of calls made. *)
Theorem C5_counters_add_up (cfg : Config) (c : S3.Client) (fuel : nat) :
  (forall fileKey st,
     let st' := fetch cfg c fileKey st in
     length (console (snd st')) = S (length (console (snd st))) /\
     ((totalDownloaded (fst st') = S (totalDownloaded (fst st)) /\
       totalSkipped (fst st') = totalSkipped (fst st) /\
       totalFailed (fst st') = totalFailed (fst st))
      \/
      (totalDownloaded (fst st') = totalDownloaded (fst st) /\
       totalSkipped (fst st') = S (totalSkipped (fst st)) /\
       totalFailed (fst st') = totalFailed (fst st))
      \/
      (totalDownloaded (fst st') = totalDownloaded (fst st) /\
       totalSkipped (fst st') = totalSkipped (fst st) /\
       totalFailed (fst st') = S (totalFailed (fst st)))))
  /\
  (forall mainFolders st st',
     ended (for_each (process_main_folder cfg c fuel) mainFolders st) = Some st' ->
     tallied st st' /\ grown st st')
  /\
  (forall w st',
     ended (downloadFromS3 cfg c fuel w) = Some st' ->
     totalDownloaded (fst st') + totalSkipped (fst st') + totalFailed (fst st')
     = length (console (snd st')) - length (console w)).
Proof.
  split; [|split].
  - intros fileKey st st'. subst st'.
    destruct (fetch_step cfg c fileKey st) as [E Hc].
    split; [rewrite Hc, length_app; simpl; lia|].
    rewrite E. cbn [fst].
    destruct (fst (downloadFile cfg c fileKey (localPathOf cfg fileKey) (snd st)));
      simpl; auto 10.
  - intros mainFolders st st' H. exact (main_loop_counted cfg c fuel mainFolders st st' H).
  - intros w st' H.
    destruct (main_loop_counted cfg c fuel (MAIN_FOLDERS cfg) (no_stats, w) st' H) as [Ht _].
    apply tallied_total in Ht. simpl in Ht. lia.
Qed.

Lemma C5_counters_add_up_witness :
  totalDownloaded (fst sample_final) + totalSkipped (fst sample_final)
  + totalFailed (fst sample_final) = 6 /\
  totalDownloaded (fst sample_final) = 2 /\
  totalSkipped (fst sample_final) = 1 /\
  totalFailed (fst sample_final) = 3.
Proof.
  destruct (C5_counters_add_up sample_config sample_client 2) as (_ & _ & Hsum).
  split.
  - rewrite (Hsum empty_world sample_final); vm_compute; reflexivity.
  - vm_compute. repeat split; reflexivity.
Defined.

(** C7 as stated fails in its first reading: a main folder without record
    folders is processed, and the run completes, without [totalFolders]
    being incremented for it. *)
Lemma C7_counterexample :
  ~ (forall cfg c fuel w st,
       downloadFromS3 cfg c fuel w = Completed st ->
       totalFolders (fst st) = length (MAIN_FOLDERS cfg)).
Proof.
  intros H.
  specialize (H sample_config sample_client 2 empty_world sample_final).
  assert (E : downloadFromS3 sample_config sample_client 2 empty_world
              = Completed sample_final) by (vm_compute; reflexivity).
  specialize (H E). vm_compute in H. discriminate H.
Qed.

(** C7, amended: when the run completes, [totalFolders] is the number of
    main folders that have at least one record folder (each is counted
    once, after its record folders have been processed), a main folder
    without record folders is passed over without being counted, and
    [totalRecordFolders] is the number of record folders found, each
    counted once. *)
Theorem C7_folder_counters (cfg : Config) (c : S3.Client) (fuel : nat)
    (w : World) (st : State) :
  downloadFromS3 cfg c fuel w = Completed st ->
  totalFolders (fst st)
  = length (List.filter (has_record_folders cfg c fuel) (MAIN_FOLDERS cfg))
  /\
  totalRecordFolders (fst st)
  = list_sum (map (fun mainFolder => length (record_folders cfg c fuel mainFolder))
                  (MAIN_FOLDERS cfg))
  /\
  (forall mainFolder st0 st0',
     process_main_folder cfg c fuel mainFolder st0 = Completed st0' ->
     record_folders cfg c fuel mainFolder = [] ->
     fst st0' = fst st0).
Proof.
  intros H. unfold downloadFromS3 in H.
  pose proof (for_each_sum (fun s => totalFolders (fst s))
                (fun mainFolder => if has_record_folders cfg c fuel mainFolder then 1 else 0)
                (process_main_folder cfg c fuel) (MAIN_FOLDERS cfg)
                (fun x a b Hx => proj1 (process_main_folder_counts cfg c fuel x a b Hx))
                _ _ H) as Hf.
  pose proof (for_each_sum (fun s => totalRecordFolders (fst s))
                (fun mainFolder => length (record_folders cfg c fuel mainFolder))
                (process_main_folder cfg c fuel) (MAIN_FOLDERS cfg)
                (fun x a b Hx => proj2 (process_main_folder_counts cfg c fuel x a b Hx))
                _ _ H) as Hr.
  rewrite list_sum_indicator in Hf. simpl in Hf, Hr.
  split; [exact Hf|]. split; [exact Hr|].
  intros mainFolder st0 st0' H0 Hnone.
  unfold process_main_folder in H0. unfold record_folders in Hnone.
  destruct (listFolders cfg c fuel _) as [subFolders|e|]; try discriminate H0.
  subst subFolders. simpl in H0. now injection H0 as <-.
Qed.

Lemma C7_folder_counters_witness :
  totalFolders (fst sample_final) = 1 /\ totalRecordFolders (fst sample_final) = 2.
Proof.
  destruct (C7_folder_counters sample_config sample_client 2 empty_world sample_final)
    as (Hf & Hr & _).
  - vm_compute. reflexivity.
  - split; [rewrite Hf | rewrite Hr]; vm_compute; reflexivity.
Defined.

(** ** The ending is decided by the listings *)

Lemma first_stop_app (a b : list (option (option S3.Error))) :
  first_stop (a ++ b) = match first_stop a with
                        | None => first_stop b
                        | Some s => Some s
                        end.
Proof.
  induction a as [|[s|] a IH]; simpl; [reflexivity | reflexivity | exact IH].
Qed.

Lemma for_each_stop {A : Type} (g : A -> list (option (option S3.Error)))
    (body : A -> State -> Run) (l : list A) :
  (forall x st, stop_of_run (body x st) = first_stop (g x)) ->
  forall st, stop_of_run (for_each body l st) = first_stop (concat (map g l)).
Proof.
  intros Hb. induction l as [|x l IH]; intros st; simpl; [reflexivity|].
  rewrite first_stop_app, <- (Hb x st).
  destruct (body x st) as [sta|e sta|]; simpl; [apply IH | reflexivity | reflexivity].
Qed.

Lemma concat_map_singleton {A B : Type} (f : A -> B) (l : list A) :
  concat (map (fun x => [f x]) l) = map f l.
Proof. induction l as [|x l IH]; simpl; [reflexivity | now rewrite IH]. Qed.

Section Stops.

Variable cfg : Config.
Variable c : S3.Client.
Variable fuel : nat.

Lemma download_folder_stop (subFolder targetFolder : string) (st : State) :
  stop_of_run (download_folder cfg c fuel subFolder targetFolder st)
  = first_stop [stop_of (listAllFiles cfg c fuel (subFolder +:+ targetFolder))].
Proof.
  unfold download_folder.
  destruct (listAllFiles cfg c fuel _) as [found|e|]; simpl; try reflexivity.
  destruct (Nat.eqb _ 0); reflexivity.
Qed.

Lemma process_record_folder_stop (subFolder : string) (st : State) :
  stop_of_run (process_record_folder cfg c fuel subFolder st)
  = first_stop (stops_record_folder cfg c fuel subFolder).
Proof.
  unfold process_record_folder, stops_record_folder.
  rewrite <- concat_map_singleton.
  apply (for_each_stop
           (fun targetFolder =>
              [stop_of (listAllFiles cfg c fuel (subFolder +:+ targetFolder))])).
  intros x st0. apply download_folder_stop.
Qed.

Lemma process_main_folder_stop (mainFolder : string) (st : State) :
  stop_of_run (process_main_folder cfg c fuel mainFolder st)
  = first_stop (stops_main_folder cfg c fuel mainFolder).
Proof.
  unfold process_main_folder, stops_main_folder, record_folders.
  destruct (listFolders cfg c fuel _) as [subFolders|e|]; simpl; try reflexivity.
  destruct (Nat.eqb (length subFolders) 0) eqn:E0.
  - apply Nat.eqb_eq in E0. destruct subFolders; [reflexivity | discriminate E0].
  - rewrite <- (for_each_stop (stops_record_folder cfg c fuel)
                  (process_record_folder cfg c fuel) subFolders
                  process_record_folder_stop st).
    destruct (for_each _ subFolders st); reflexivity.
Qed.

(** Whether the run completes, is rejected or does not end is read off the
    first listing call that is not fulfilled. *)
Lemma run_stop (w : World) :
  stop_of_run (downloadFromS3 cfg c fuel w) = first_stop (stops cfg c fuel).
Proof.
  unfold downloadFromS3, stops.
  apply (for_each_stop (stops_main_folder cfg c fuel)).
  intros x st. apply process_main_folder_stop.
Qed.

End Stops.

(** C8: when every listing is answered without error (in at most [fuel]
    pages), [downloadFromS3] runs to its end and the process ends with
    code 0, whatever the [GetObject] requests answer and however many
    downloads failed; and when the process ends with another code, the
    code is 1 and a listing request was answered by the error with which
    [downloadFromS3] was rejected.  The exit code is decided by the listing
    calls alone, in the order in which the run makes them: 0 when all are
    fulfilled, 1 when the first that is not fulfilled is rejected, and no
    exit while that one is still asking for pages.  So a rejected listing,
    of record folders or of a folder to download, always leaves
    [downloadFromS3] as the rejection it is and ends the process with
    code 1; in particular the run stops at once, with code 1, when the
    first listing request of all is answered by an error. *)
Theorem C8_exit_code (cfg : Config) (c : S3.Client) (fuel : nat) (w : World) :
  (listings_succeed cfg c fuel ->
   exists st, downloadFromS3 cfg c fuel w = Completed st /\ main cfg c fuel w = Some 0)
  /\
  (forall n, main cfg c fuel w = Some n -> n <> 0 ->
     n = 1 /\
     exists command e st,
       S3.send_list c command = inl e /\ downloadFromS3 cfg c fuel w = Crashed e st)
  /\
  main cfg c fuel w
  = match first_stop (stops cfg c fuel) with
    | None => Some 0
    | Some (Some _) => Some 1
    | Some None => None
    end
  /\
  (forall e, first_stop (stops cfg c fuel) = Some (Some e) ->
     (exists st, downloadFromS3 cfg c fuel w = Crashed e st) /\
     main cfg c fuel w = Some 1)
  /\
  (forall mainFolder rest e,
     MAIN_FOLDERS cfg = mainFolder :: rest ->
     0 < fuel ->
     S3.send_list c {| S3.Bucket := BUCKET_NAME cfg;
                       S3.Prefix := S3_BASE_PREFIX cfg +:+ mainFolder +:+ "/";
                       S3.Delimiter := Some "/";
                       S3.ContinuationToken := None |} = inl e ->
     downloadFromS3 cfg c fuel w = Crashed e (no_stats, w) /\
     main cfg c fuel w = Some 1).
Proof.
  split; [|split; [|split; [|split]]].
  - intros Hlist. unfold main, downloadFromS3.
    destruct (for_each_completes (process_main_folder cfg c fuel) (MAIN_FOLDERS cfg)
                (process_main_folder_completes cfg c fuel Hlist) (no_stats, w))
      as [st ->].
    exists st. split; reflexivity.
  - intros n Hn Hne. unfold main in Hn.
    destruct (downloadFromS3 cfg c fuel w) as [st|e st|] eqn:E; simpl in Hn;
      try discriminate Hn.
    + injection Hn as <-. congruence.
    + injection Hn as <-. split; [reflexivity|].
      unfold downloadFromS3 in E.
      destruct (for_each_explained c (process_main_folder cfg c fuel) (MAIN_FOLDERS cfg)
                  (process_main_folder_explained cfg c fuel) _ _ _ E) as [command Hc].
      exists command, e, st. auto.
  - rewrite <- (run_stop cfg c fuel w). unfold main.
    destruct (downloadFromS3 cfg c fuel w); reflexivity.
  - intros e He. rewrite <- (run_stop cfg c fuel w) in He. unfold main.
    destruct (downloadFromS3 cfg c fuel w) as [st|e' st|]; simpl in He;
      try discriminate He.
    injection He as ->. split; [eauto | reflexivity].
  - intros mainFolder rest e Hm Hfuel Hsend.
    assert (E : downloadFromS3 cfg c fuel w = Crashed e (no_stats, w)).
    { unfold downloadFromS3. rewrite Hm. simpl.
      unfold process_main_folder, listFolders.
      destruct fuel as [|fuel']; [lia|]. simpl. now rewrite Hsend. }
    split; [exact E|]. unfold main. now rewrite E.
Qed.

Lemma sample_listings_succeed : listings_succeed sample_config sample_client 2.
Proof.
  intros prefix delim. destruct delim as [d|].
  - destruct (String.eqb prefix "base/folder1/") eqn:E.
    + exists [folders_page1; folders_page2]. split; [|simpl; lia].
      eapply paged_more; [simpl; unfold sample_list; simpl; now rewrite E
                         | reflexivity | reflexivity | discriminate |].
      apply paged_last; [simpl; unfold sample_list; simpl; now rewrite E | reflexivity].
    + exists [empty_page]. split; [|simpl; lia].
      apply paged_last; [simpl; unfold sample_list; simpl; now rewrite E | reflexivity].
  - destruct (String.eqb prefix "base/folder1/rec-1/photos/") eqn:E.
    + exists [photos_page1; photos_page2]. split; [|simpl; lia].
      eapply paged_more; [simpl; unfold sample_list; simpl; now rewrite E
                         | reflexivity | reflexivity | discriminate |].
      apply paged_last; [simpl; unfold sample_list; simpl; now rewrite E | reflexivity].
    + exists [empty_page]. split; [|simpl; lia].
      apply paged_last; [simpl; unfold sample_list; simpl; now rewrite E | reflexivity].
Qed.

Lemma C8_exit_code_witness :
  main sample_config sample_client 2 empty_world = Some 0 /\
  totalFailed (fst sample_final) = 3 /\
  (exists command, S3.send_list denied_client command = inl "AccessDenied") /\
  main sample_config denied_client 2 empty_world = Some 1 /\
  main sample_config failing_client 2 empty_world = Some 1.
Proof.
  split; [|split; [|split; [|split]]].
  - destruct (C8_exit_code sample_config sample_client 2 empty_world) as [H _].
    destruct (H sample_listings_succeed) as (st & _ & Hmain). exact Hmain.
  - vm_compute. reflexivity.
  - destruct (C8_exit_code sample_config denied_client 2 empty_world) as (_ & H & _).
    destruct (H 1) as (_ & command & e & st & Hc & Hr).
    + vm_compute. reflexivity.
    + discriminate.
    + exists command. rewrite Hc. f_equal.
      assert (Hv : downloadFromS3 sample_config denied_client 2 empty_world
                   = Crashed "AccessDenied" (no_stats, empty_world))
        by (vm_compute; reflexivity).
      congruence.
  - destruct (C8_exit_code sample_config denied_client 2 empty_world)
      as (_ & _ & _ & _ & H).
    apply (H "folder1" ["empty"] "AccessDenied"); [reflexivity | lia | reflexivity].
  - destruct (C8_exit_code sample_config failing_client 2 empty_world)
      as (_ & _ & _ & H & _).
    apply (H "SlowDown"). vm_compute. reflexivity.
Defined.

(** C4: started on a well-formed local directory, let [downloadFromS3] end;
    run again on what it left, with the same bucket, it ends the same way,
    downloads nothing, and leaves the local files exactly as they were.
    Line by line the second run calls [downloadFile] for the same keys;
    whatever the first run downloaded or skipped is skipped, and what is
    not skipped fails as before.  Hence the skipped counter of the second
    run is at least the downloaded and skipped counters of the first
    together, and both runs make the same number of calls. *)
Theorem C4_second_run_downloads_nothing (cfg : Config) (c : S3.Client) (fuel : nat)
    (w : World) (st1 : State) :
  well_formed (files w) ->
  ended (downloadFromS3 cfg c fuel w) = Some st1 ->
  exists st2,
    ended (downloadFromS3 cfg c fuel (snd st1)) = Some st2 /\
    same_ending (downloadFromS3 cfg c fuel w) (downloadFromS3 cfg c fuel (snd st1)) /\
    totalDownloaded (fst st2) = 0 /\
    files (snd st2) = files (snd st1) /\
    totalDownloaded (fst st1) + totalSkipped (fst st1) <= totalSkipped (fst st2) /\
    totalSkipped (fst st2) + totalFailed (fst st2)
    = totalDownloaded (fst st1) + totalSkipped (fst st1) + totalFailed (fst st1) /\
    exists lines lines2,
      console (snd st1) = console w ++ lines /\
      console (snd st2) = console (snd st1) ++ lines2 /\
      Forall2 again lines lines2.
Proof.
  intros Hwf H. unfold downloadFromS3 in *.
  destruct (main_loop_repeatable cfg c fuel (MAIN_FOLDERS cfg) (no_stats, w) st1 Hwf H)
    as (Hwf1 & _ & Hrep).
  destruct (Hrep (no_stats, snd st1) Hwf1 (extends_refl _))
    as (st2 & Hend & Hsame & Hfiles & Hd & lines & lines2 & Hc1 & Hc2 & Hagain).
  exists st2. simpl in *.
  split; [exact Hend|]. split; [exact Hsame|]. split; [exact Hd|]. split; [exact Hfiles|].
  destruct (again_counts lines lines2 Hagain) as (Hz & Hle & Hlen).
  destruct (main_loop_counted cfg c fuel (MAIN_FOLDERS cfg) (no_stats, w) st1 H)
    as [(l1 & Ha1 & Hb1 & Hs1 & Hf1) _].
  destruct (main_loop_counted cfg c fuel (MAIN_FOLDERS cfg) (no_stats, snd st1) st2 Hend)
    as [(l2 & Ha2 & Hb2 & Hs2 & Hf2) _].
  simpl in *.
  assert (l1 = lines) by (rewrite Hc1 in Ha1; now apply app_inv_head in Ha1).
  assert (l2 = lines2) by (rewrite Hc2 in Ha2; now apply app_inv_head in Ha2).
  subst l1 l2.
  pose proof (lines_with_total lines) as T1.
  pose proof (lines_with_total lines2) as T2.
  split; [lia|]. split; [lia|].
  exists lines, lines2. auto.
Qed.

Lemma C4_second_run_downloads_nothing_witness :
  downloadFromS3 sample_config sample_client 2 (snd sample_final)
  = Completed sample_again /\
  totalDownloaded (fst sample_again) = 0 /\
  totalSkipped (fst sample_again) = 4 /\
  totalFailed (fst sample_again) = 2 /\
  files (snd sample_again) = files (snd sample_final).
Proof.
  destruct (C4_second_run_downloads_nothing sample_config sample_client 2
              empty_world sample_final well_formed_empty)
    as (st2 & Hend & Hsame & Hd & Hf & _).
  - vm_compute. reflexivity.
  - assert (Hv : downloadFromS3 sample_config sample_client 2 (snd sample_final)
                 = Completed sample_again) by (vm_compute; reflexivity).
    rewrite Hv in Hend. simpl in Hend. injection Hend as <-.
    split; [exact Hv|]. split; [exact Hd|].
    split; [vm_compute; reflexivity|].
    split; [vm_compute; reflexivity | exact Hf].
Defined.


(** * Further properties *)

(** ** A relation kept by every step is kept by the run *)

Section RunRespects.

Variable cfg : Config.
Variable c : S3.Client.
Variable fuel : nat.
Variable Rel : State -> State -> Prop.
Hypothesis Rel_refl : forall st, Rel st st.
Hypothesis Rel_trans : forall a b d, Rel a b -> Rel b d -> Rel a d.
Hypothesis Rel_fetch : forall fileKey st, Rel st (fetch cfg c fileKey st).
Hypothesis Rel_record : forall st, Rel st (count_record_folder (fst st), snd st).

Lemma download_folder_respects (subFolder targetFolder : string) :
  respects Rel (download_folder cfg c fuel subFolder targetFolder).
Proof.
  intros st st' H. unfold download_folder in H.
  destruct (listAllFiles cfg c fuel _) as [found|e|]; [| |discriminate H].
  - destruct (Nat.eqb _ 0); injection H as <-; [apply Rel_refl|].
    apply (fold_left_respects Rel Rel_refl Rel_trans). intros x st0. apply Rel_fetch.
  - injection H as <-. apply Rel_refl.
Qed.

Lemma process_record_folder_respects (subFolder : string) :
  respects Rel (process_record_folder cfg c fuel subFolder).
Proof.
  intros st st' H. unfold process_record_folder in H.
  eapply Rel_trans; [apply Rel_record|].
  eapply Rel_trans.
  - apply (fold_left_respects Rel Rel_refl Rel_trans
             (fun st jsonFile => fetch cfg c (subFolder +:+ jsonFile) st)).
    intros x st0. apply Rel_fetch.
  - exact (for_each_respects Rel Rel_refl Rel_trans
             (download_folder cfg c fuel subFolder) (FOLDERS_TO_DOWNLOAD cfg)
             (download_folder_respects subFolder) _ _ H).
Qed.

Lemma record_folders_respects (subFolders : list string) :
  respects Rel (for_each (process_record_folder cfg c fuel) subFolders).
Proof.
  apply (for_each_respects Rel Rel_refl Rel_trans).
  apply process_record_folder_respects.
Qed.

Hypothesis Rel_folder : forall st, Rel st (count_folder (fst st), snd st).

Lemma process_main_folder_respects (mainFolder : string) :
  respects Rel (process_main_folder cfg c fuel mainFolder).
Proof.
  intros st st' H. unfold process_main_folder in H.
  destruct (listFolders cfg c fuel _) as [subFolders|e|]; [| |discriminate H].
  - destruct (Nat.eqb _ 0); [injection H as <-; apply Rel_refl|].
    destruct (for_each _ subFolders st) as [sta|e sta|] eqn:E; [| |discriminate H].
    + injection H as <-.
      eapply Rel_trans; [|apply Rel_folder].
      apply (record_folders_respects subFolders st sta). now rewrite E.
    + injection H as <-.
      apply (record_folders_respects subFolders st sta). now rewrite E.
  - injection H as <-. apply Rel_refl.
Qed.

Lemma run_respects (w : World) (st : State) :
  ended (downloadFromS3 cfg c fuel w) = Some st -> Rel (no_stats, w) st.
Proof.
  unfold downloadFromS3.
  apply (for_each_respects Rel Rel_refl Rel_trans).
  apply process_main_folder_respects.
Qed.

End RunRespects.

(** ** Labels and prefixes *)

Lemma prefix_sep_cons (ch : ascii) (s : string) :
  Path.is_sep ch = false -> String.prefix "/" (String ch s) = false.
Proof.
  intros H.
  change (String.prefix "/" (String ch s))
    with (if ascii_dec "/" ch then String.prefix "" s else false).
  destruct (ascii_dec "/" ch) as [<-|]; [discriminate H | reflexivity].
Qed.

Lemma replace_first_sep (name tail : string) :
  no_sep name = true ->
  JS.replace (name +:+ String Path.sep tail) "/" "" = name +:+ tail.
Proof.
  induction name as [|ch name IH]; intros H.
  - rewrite !append_nil_l. destruct tail; reflexivity.
  - simpl in H. apply andb_true_iff in H as [Hc Hn].
    apply negb_true_iff in Hc.
    rewrite !append_cons. cbn [JS.replace].
    rewrite (prefix_sep_cons ch _ Hc). now rewrite (IH Hn).
Qed.

Lemma replace_absent (pat rep s : string) :
  occurs pat s = false -> JS.replace s pat rep = s.
Proof.
  induction s as [|ch s IH]; intros H; cbn [occurs] in H;
    apply orb_false_iff in H as [Hp Hrest].
  - cbn [JS.replace]. now rewrite Hp.
  - cbn [JS.replace]. rewrite Hp. now rewrite (IH Hrest).
Qed.

(** ** What a listing returns, exactly *)

Section Listings.

Variable cfg : Config.
Variable c : S3.Client.
Variable prefix : string.

Lemma listAllFiles_loop_answered token pages :
  answered c (BUCKET_NAME cfg) prefix None token pages ->
  forall fuel acc, length pages <= fuel ->
    listAllFiles_loop cfg c fuel prefix acc token
    = Fulfilled (acc ++ concat (map keys_of pages)).
Proof.
  induction 1 as [token response Hs Ht | token response rest Hs Ht Hrest IH];
    intros fuel acc Hlen.
  - destruct fuel as [|fuel]; [simpl in Hlen; lia|]. simpl. rewrite Hs, Ht.
    unfold keys_of. destruct (S3.Contents response); simpl; now rewrite ?app_nil_r.
  - destruct fuel as [|fuel]; [simpl in Hlen; lia|]. simpl. rewrite Hs, Ht.
    rewrite IH by (simpl in Hlen; lia).
    unfold keys_of at 2. destruct (S3.Contents response); simpl;
      now rewrite <- ?app_assoc.
Qed.

Lemma listAllFiles_loop_inv fuel : forall acc token found,
  listAllFiles_loop cfg c fuel prefix acc token = Fulfilled found ->
  exists pages,
    answered c (BUCKET_NAME cfg) prefix None token pages /\
    length pages <= fuel /\
    found = acc ++ concat (map keys_of pages).
Proof.
  induction fuel as [|fuel IH]; intros acc token found H; simpl in H; [discriminate H|].
  destruct (S3.send_list c _) as [e|response] eqn:Hs; [discriminate H|].
  assert (Hacc : (match S3.Contents response with
                  | Some items => acc ++ map S3.Key items
                  | None => acc
                  end) = acc ++ keys_of response).
  { unfold keys_of. destruct (S3.Contents response); now rewrite ?app_nil_r. }
  rewrite Hacc in H.
  destruct (JS.truthy (next_token response)) eqn:Ht.
  - destruct (IH _ _ _ H) as (pages & Ha & Hl & Hf).
    exists (response :: pages). split; [now apply answered_more|].
    split; [simpl; lia|]. simpl. now rewrite Hf, <- app_assoc.
  - injection H as <-. exists [response].
    split; [now apply answered_last|]. split; [simpl; lia|].
    simpl. now rewrite app_nil_r.
Qed.

Lemma listFolders_loop_answered token pages :
  answered c (BUCKET_NAME cfg) prefix (Some "/") token pages ->
  forall fuel acc, length pages <= fuel ->
    listFolders_loop cfg c fuel prefix acc token
    = Fulfilled (fold_left (fun s x => set_add x s) (concat (map prefixes_of pages)) acc).
Proof.
  induction 1 as [token response Hs Ht | token response rest Hs Ht Hrest IH];
    intros fuel acc Hlen.
  - destruct fuel as [|fuel]; [simpl in Hlen; lia|]. simpl. rewrite Hs, Ht.
    unfold prefixes_of. destruct (S3.CommonPrefixes response); simpl;
      now rewrite ?app_nil_r, ?fold_set_add_map.
  - destruct fuel as [|fuel]; [simpl in Hlen; lia|]. simpl. rewrite Hs, Ht.
    rewrite IH by (simpl in Hlen; lia). rewrite fold_left_app. f_equal. f_equal.
    unfold prefixes_of. destruct (S3.CommonPrefixes response);
      now rewrite ?fold_set_add_map.
Qed.

Lemma listFolders_loop_inv fuel : forall acc token found,
  listFolders_loop cfg c fuel prefix acc token = Fulfilled found ->
  exists pages,
    answered c (BUCKET_NAME cfg) prefix (Some "/") token pages /\
    length pages <= fuel /\
    found = fold_left (fun s x => set_add x s) (concat (map prefixes_of pages)) acc.
Proof.
  induction fuel as [|fuel IH]; intros acc token found H; simpl in H; [discriminate H|].
  destruct (S3.send_list c _) as [e|response] eqn:Hs; [discriminate H|].
  assert (Hacc : (match S3.CommonPrefixes response with
                  | Some items =>
                      fold_left (fun s item => set_add (S3.cp_Prefix item) s) items acc
                  | None => acc
                  end) = fold_left (fun s x => set_add x s) (prefixes_of response) acc).
  { unfold prefixes_of. destruct (S3.CommonPrefixes response);
      now rewrite ?fold_set_add_map. }
  rewrite Hacc in H.
  destruct (JS.truthy (next_token response)) eqn:Ht.
  - destruct (IH _ _ _ H) as (pages & Ha & Hl & Hf).
    exists (response :: pages). split; [now apply answered_more|].
    split; [simpl; lia|]. simpl. now rewrite fold_left_app.
  - injection H as <-. exists [response].
    split; [now apply answered_last|]. split; [simpl; lia|].
    simpl. now rewrite app_nil_r.
Qed.

End Listings.

(** ** More on [downloadFile] *)

Lemma mkdirp_extends (n : nat) (fs fs' : gmap string Fs.node) (d : string) :
  Fs.mkdirp n fs d = Some fs' -> extends fs fs' /\ Fs.stat fs' d = Some Fs.Dir.
Proof.
  revert fs' d. induction n as [|n IH]; intros fs' d Hm; simpl in Hm.
  - destruct (Fs.stat fs d) as [[|]|] eqn:Hd; try congruence.
    injection Hm as <-. auto using extends_refl.
  - destruct (Fs.stat fs d) as [[|]|] eqn:Hd; try congruence.
    { injection Hm as <-. auto using extends_refl. }
    destruct (Fs.mkdirp n fs (Path.dirname d)) as [fs''|] eqn:Hm'; [|discriminate].
    injection Hm as <-.
    destruct (IH fs'' (Path.dirname d) Hm') as (Hext & _).
    pose proof (stat_none_not_root _ _ Hd) as Hroot.
    assert (Hd'' : Fs.stat fs'' d = None).
    { rewrite (mkdirp_stat_other n fs fs'' (Path.dirname d) d Hm'); [exact Hd|].
      now apply dirname_height. }
    split.
    + eapply extends_trans; [exact Hext|]. now apply extends_insert.
    + now apply stat_insert_eq.
Qed.

Section DownloadFileMore.

Variable cfg : Config.
Variable c : S3.Client.

(** The outcomes of [downloadFile], by what it did. *)
Lemma downloadFile_outcomes (key localPath : string) (w : World) :
  let r := downloadFile cfg c key localPath w in
  extends (files w) (files (snd r)) /\
  match fst r with
  | Skipped =>
      Fs.stat (files w) localPath <> None /\
      gets (snd r) = gets w /\ files (snd r) = files w
  | Failed =>
      Fs.stat (files w) localPath = None /\ gets (snd r) = gets w ++ [key]
  | Downloaded =>
      Fs.stat (files w) localPath = None /\ gets (snd r) = gets w ++ [key] /\
      exists response,
        S3.send_get c {| S3.get_Bucket := BUCKET_NAME cfg; S3.get_Key := key |}
          = inr response /\
        S3.ends_well (S3.Body response) = true /\
        Fs.stat (files (snd r)) localPath
          = Some (Fs.File (S3.delivered (S3.Body response))) /\
        Fs.stat (files (snd r)) (Path.dirname localPath) = Some Fs.Dir
  end.
Proof.
  intros r. subst r. unfold downloadFile.
  destruct (Fs.existsSync (files w) localPath) eqn:Hex.
  { apply existsSync_true in Hex. simpl. auto using extends_refl. }
  apply existsSync_false in Hex.
  pose proof (stat_none_not_root _ _ Hex) as Hroot.
  destruct (S3.send_get c _) as [e|response] eqn:Hget.
  { simpl. auto using extends_refl. }
  cbn [files sent_get].
  assert (Hmade : forall fs1,
             (if negb (Fs.existsSync (files w) (Path.dirname localPath))
              then Fs.mkdirSync_recursive (files w) (Path.dirname localPath)
              else Some (files w)) = Some fs1 ->
             extends (files w) fs1 /\ Fs.stat fs1 localPath = None).
  { intros fs1 H. destruct (negb _).
    - unfold Fs.mkdirSync_recursive in H. split.
      + now apply mkdirp_extends in H.
      + rewrite (mkdirp_stat_other _ _ _ _ localPath H); [exact Hex|].
        now apply dirname_height.
    - injection H as <-. split; [apply extends_refl | exact Hex]. }
  destruct (if negb _ then _ else _) as [fs1|]; [|simpl; auto using extends_refl].
  destruct (Hmade fs1 eq_refl) as [Hext1 Hp1].
  unfold Fs.pipeline. rewrite Hp1.
  destruct (Fs.stat fs1 (Path.dirname localPath)) as [[content|]|] eqn:Hd;
    try (simpl; split; [exact Hext1 | auto]).
  assert (Hext2 : extends (files w)
                    (<[localPath := Fs.File (S3.delivered (S3.Body response))]> fs1)).
  { eapply extends_trans; [exact Hext1 | now apply extends_insert]. }
  destruct (S3.ends_well (S3.Body response)) eqn:Hw; simpl;
    (split; [exact Hext2|]); [|auto].
  split; [exact Hex|]. split; [reflexivity|].
  exists response. split; [reflexivity|]. split; [exact Hw|].
  split; [now apply stat_insert_eq|].
  rewrite stat_insert_ne; [exact Hd|]. apply not_eq_sym. now apply dirname_neq.
Qed.

End DownloadFileMore.

(** ** The keys of a run *)

Lemma for_each_appends {A : Type} (g : A -> list string)
    (body : A -> State -> Run) (l : list A) :
  (forall x st st', body x st = Completed st' ->
     map fst (console (snd st')) = map fst (console (snd st)) ++ g x) ->
  forall st st', for_each body l st = Completed st' ->
    map fst (console (snd st')) = map fst (console (snd st)) ++ concat (map g l).
Proof.
  intros Hb. induction l as [|x l IH]; intros st st' H; simpl in H.
  - injection H as <-. simpl. now rewrite app_nil_r.
  - destruct (body x st) as [sta|e sta|] eqn:E; try discriminate H.
    rewrite (IH sta st' H), (Hb x st sta E). simpl. now rewrite app_assoc.
Qed.

Lemma fold_fetch_map (cfg : Config) (c : S3.Client) (f : string -> string)
    (l : list string) (st : State) :
  fold_left (fun st x => fetch cfg c (f x) st) l st
  = fold_left (fun st k => fetch cfg c k st) (map f l) st.
Proof. revert st. induction l as [|x l IH]; intros st; simpl; [reflexivity | apply IH]. Qed.

Lemma filter_length_zero {A : Type} (l : list A) : length l = 0 -> l = [].
Proof. destruct l; [reflexivity | discriminate]. Qed.

Section Keys.

Variable cfg : Config.
Variable c : S3.Client.
Variable fuel : nat.

Lemma fetch_keys (keys : list string) (st : State) :
  map fst (console (snd (fold_left (fun st k => fetch cfg c k st) keys st)))
  = map fst (console (snd st)) ++ keys.
Proof.
  destruct (fetch_all_attempted cfg c keys st) as (lines & Hc & Hk & _).
  now rewrite Hc, map_app, Hk.
Qed.

Lemma download_folder_keys (subFolder targetFolder : string) (st st' : State) :
  download_folder cfg c fuel subFolder targetFolder st = Completed st' ->
  map fst (console (snd st'))
  = map fst (console (snd st))
    ++ actual_files (listed cfg c fuel (subFolder +:+ targetFolder)).
Proof.
  unfold download_folder, listed, actual_files. intros H.
  destruct (listAllFiles cfg c fuel _) as [found|e|]; try discriminate H.
  destruct (Nat.eqb _ 0) eqn:E0; injection H as <-.
  - apply Nat.eqb_eq, filter_length_zero in E0. rewrite E0. now rewrite app_nil_r.
  - apply fetch_keys.
Qed.

Lemma process_record_folder_keys (subFolder : string) (st st' : State) :
  process_record_folder cfg c fuel subFolder st = Completed st' ->
  map fst (console (snd st'))
  = map fst (console (snd st)) ++ planned_record_folder cfg c fuel subFolder.
Proof.
  unfold process_record_folder, planned_record_folder. intros H.
  rewrite (for_each_appends _ _ _ (download_folder_keys subFolder) _ _ H).
  unfold download_json_files. rewrite fold_fetch_map, fetch_keys. simpl.
  now rewrite app_assoc.
Qed.

Lemma process_main_folder_keys (mainFolder : string) (st st' : State) :
  process_main_folder cfg c fuel mainFolder st = Completed st' ->
  map fst (console (snd st'))
  = map fst (console (snd st)) ++ planned_main_folder cfg c fuel mainFolder.
Proof.
  unfold process_main_folder, planned_main_folder, record_folders. intros H.
  destruct (listFolders cfg c fuel _) as [subFolders|e|]; try discriminate H.
  destruct (Nat.eqb _ 0) eqn:E0.
  - injection H as <-. apply Nat.eqb_eq, filter_length_zero in E0. rewrite E0.
    simpl. now rewrite app_nil_r.
  - destruct (for_each _ subFolders st) as [sta|e sta|] eqn:E; try discriminate H.
    injection H as <-. simpl.
    exact (for_each_appends _ _ _ process_record_folder_keys _ _ E).
Qed.

End Keys.

(** ** Relations that the run keeps *)

Lemma requested_app (l1 l2 : list (string * Outcome)) :
  requested (l1 ++ l2) = requested l1 ++ requested l2.
Proof. unfold requested. now rewrite List.filter_app, map_app. Qed.

Lemma downloaded_keys_app (l1 l2 : list (string * Outcome)) :
  downloaded_keys (l1 ++ l2) = downloaded_keys l1 ++ downloaded_keys l2.
Proof. unfold downloaded_keys. now rewrite List.filter_app, map_app. Qed.

Lemma accounted_refl (st : State) : accounted st st.
Proof. exists []. now rewrite !app_nil_r. Qed.

Lemma accounted_trans (a b d : State) : accounted a b -> accounted b d -> accounted a d.
Proof.
  intros (l1 & Hc1 & Hg1) (l2 & Hc2 & Hg2). exists (l1 ++ l2).
  rewrite requested_app, Hc2, Hc1, Hg2, Hg1, !app_assoc. auto.
Qed.

Lemma keeps_tree_trans (a b d : State) : keeps_tree a b -> keeps_tree b d -> keeps_tree a d.
Proof. unfold keeps_tree. auto. Qed.

Section Kept.

Variable cfg : Config.
Variable c : S3.Client.

Lemma written_once_refl (st : State) : written_once cfg st st.
Proof.
  split; [apply extends_refl|]. exists []. rewrite app_nil_r.
  split; [reflexivity|]. split; [|constructor].
  intros key H. unfold downloaded_keys in H. simpl in H. now apply elem_of_nil in H.
Qed.

Lemma written_once_trans (a b d : State) :
  written_once cfg a b -> written_once cfg b d -> written_once cfg a d.
Proof.
  intros (He1 & l1 & Hc1 & Hk1 & Hn1) (He2 & l2 & Hc2 & Hk2 & Hn2).
  split; [eapply extends_trans; eassumption|].
  exists (l1 ++ l2). rewrite Hc2, Hc1, app_assoc. split; [reflexivity|].
  rewrite downloaded_keys_app, map_app. split.
  - intros key Hkey. apply elem_of_app in Hkey as [Hkey|Hkey].
    + destruct (Hk1 key Hkey) as [Hb Ha]. split; [exact Hb|].
      destruct (Fs.stat (files (snd b)) (localPathOf cfg key)) as [node|] eqn:E;
        [|congruence].
      rewrite (He2 _ _ E). congruence.
    + destruct (Hk2 key Hkey) as [Hb Ha]. split; [|exact Ha].
      destruct (Fs.stat (files (snd a)) (localPathOf cfg key)) as [node|] eqn:E;
        [|reflexivity].
      rewrite (He1 _ _ E) in Hb. discriminate Hb.
  - apply NoDup_app. split; [exact Hn1|]. split; [|exact Hn2].
    intros p Hp1 Hp2.
    apply list_elem_of_fmap in Hp1 as (k1 & -> & Hk1').
    apply list_elem_of_fmap in Hp2 as (k2 & Heq & Hk2').
    destruct (Hk1 k1 Hk1') as [_ Ha]. destruct (Hk2 k2 Hk2') as [Hb _].
    rewrite <- Heq in Hb. contradiction.
Qed.

Lemma fetch_written_once (fileKey : string) (st : State) :
  written_once cfg st (fetch cfg c fileKey st).
Proof.
  destruct (fetch_step cfg c fileKey st) as [E Hc].
  pose proof (downloadFile_outcomes cfg c fileKey (localPathOf cfg fileKey) (snd st))
    as [Hext Ho].
  cbv zeta in Ho. split; [rewrite E; exact Hext|].
  eexists. split; [exact Hc|]. unfold downloaded_keys.
  rewrite E. cbn [fst snd].
  destruct (fst (downloadFile cfg c fileKey (localPathOf cfg fileKey) (snd st))); simpl.
  - destruct Ho as (Hb & _ & response & _ & _ & Ha & _).
    split; [|repeat constructor; now intros ?%elem_of_nil].
    intros key Hkey. apply list_elem_of_singleton in Hkey. subst key.
    split; [exact Hb | congruence].
  - split; [now intros key ?%elem_of_nil | constructor].
  - split; [now intros key ?%elem_of_nil | constructor].
Qed.

Lemma fetch_accounted (fileKey : string) (st : State) :
  accounted st (fetch cfg c fileKey st).
Proof.
  destruct (fetch_step cfg c fileKey st) as [E Hc].
  pose proof (downloadFile_outcomes cfg c fileKey (localPathOf cfg fileKey) (snd st))
    as [_ Ho].
  cbv zeta in Ho. eexists. split; [exact Hc|]. unfold requested.
  rewrite E. cbn [fst snd].
  destruct (fst (downloadFile cfg c fileKey (localPathOf cfg fileKey) (snd st))); simpl.
  - now destruct Ho as (_ & -> & _).
  - destruct Ho as (_ & -> & _). now rewrite app_nil_r.
  - now destruct Ho as (_ & ->).
Qed.

Lemma fetch_keeps_files (fileKey : string) (st : State) :
  keeps_files st (fetch cfg c fileKey st).
Proof.
  destruct (fetch_step cfg c fileKey st) as [E _]. rewrite E.
  apply (downloadFile_outcomes cfg c fileKey (localPathOf cfg fileKey) (snd st)).
Qed.

Lemma fetch_keeps_tree (fileKey : string) (st : State) :
  keeps_tree st (fetch cfg c fileKey st).
Proof.
  intros Hwf. destruct (fetch_step cfg c fileKey st) as [E _]. rewrite E.
  now apply downloadFile_keeps.
Qed.

End Kept.

(** * Further results *)

(** X1: under a folder to download, [downloadFile] is called for the listed
    keys that do not end with a slash, in the order of the listing, and for
    no other key: a folder entry is never fetched. *)
Theorem X1_folder_entries_are_not_fetched (cfg : Config) (c : S3.Client) (fuel : nat)
    (subFolder targetFolder : string) (found : list string) (st : State) :
  listAllFiles cfg c fuel (subFolder +:+ targetFolder) = Fulfilled found ->
  exists st',
    download_folder cfg c fuel subFolder targetFolder st = Completed st' /\
    map fst (console (snd st')) = map fst (console (snd st)) ++ actual_files found /\
    (forall key, key ∈ actual_files found <->
                 key ∈ found /\ JS.endsWith key "/" = false).
Proof.
  intros H.
  assert (Hc : exists st', download_folder cfg c fuel subFolder targetFolder st
                           = Completed st').
  { unfold download_folder. rewrite H. destruct (Nat.eqb _ 0); eauto. }
  destruct Hc as [st' Hc]. exists st'. split; [exact Hc|]. split.
  - rewrite (download_folder_keys cfg c fuel subFolder targetFolder st st' Hc).
    unfold listed. now rewrite H.
  - intros key. unfold actual_files.
    rewrite !list_elem_of_In, List.filter_In, negb_true_iff. reflexivity.
Qed.

Lemma X1_folder_entries_are_not_fetched_witness :
  exists st',
    download_folder sample_config sample_client 2 "base/folder1/rec-1/" "photos/"
      (no_stats, empty_world) = Completed st' /\
    map fst (console (snd st'))
    = ["base/folder1/rec-1/photos/img1.jpg"; "base/folder1/rec-1/photos//img1.jpg"].
Proof.
  destruct (X1_folder_entries_are_not_fetched sample_config sample_client 2
              "base/folder1/rec-1/" "photos/"
              ["base/folder1/rec-1/photos/"; "base/folder1/rec-1/photos/img1.jpg";
               "base/folder1/rec-1/photos//img1.jpg"]
              (no_stats, empty_world)) as (st' & Hc & Hk & _).
  - vm_compute. reflexivity.
  - exists st'. split; [exact Hc | exact Hk].
Defined.

(** X2: a run that completes has called [downloadFile] for exactly the
    planned keys, in order: for each main folder and each of its record
    folders, the record folder's prefix followed by each JSON file name,
    whether the object exists or not, and then, for each folder to download,
    the listed keys that are not folder entries.  Nothing is left out and
    nothing is removed as a duplicate. *)
Theorem X2_run_attempts_the_planned_keys (cfg : Config) (c : S3.Client) (fuel : nat)
    (w : World) (st : State) :
  downloadFromS3 cfg c fuel w = Completed st ->
  map fst (console (snd st)) = map fst (console w) ++ planned cfg c fuel.
Proof.
  intros H. unfold downloadFromS3 in H.
  exact (for_each_appends _ _ _ (process_main_folder_keys cfg c fuel) _ _ H).
Qed.

Lemma X2_run_attempts_the_planned_keys_witness :
  map fst (console (snd sample_final))
  = ["base/folder1/rec-1/metadata.json"; "base/folder1/rec-1/config.json";
     "base/folder1/rec-1/photos/img1.jpg"; "base/folder1/rec-1/photos//img1.jpg";
     "base/folder1/rec-2/metadata.json"; "base/folder1/rec-2/config.json"].
Proof.
  rewrite (X2_run_attempts_the_planned_keys sample_config sample_client 2
             empty_world sample_final); vm_compute; reflexivity.
Defined.

(** X3: the name printed for a record folder (lines 151 and 158) is what
    stands between the scan prefix and the closing slash, for a common
    prefix of the form scan prefix, name, slash with no slash in the name. *)
Theorem X3_folder_name (scanPrefix name : string) :
  no_sep name = true ->
  folderNameOf scanPrefix (scanPrefix +:+ name +:+ "/") = name.
Proof.
  intros H. unfold folderNameOf. rewrite replace_at_front.
  change (name +:+ "/") with (name +:+ String Path.sep "").
  rewrite (replace_first_sep name "" H). apply append_empty_r.
Qed.

Lemma X3_folder_name_witness :
  folderNameOf "base/folder1/" "base/folder1/rec-1/" = "rec-1".
Proof. exact (X3_folder_name "base/folder1/" "rec-1" eq_refl). Defined.

(** X4: a key in which the base prefix does not occur keeps all of itself
    in its local path: it is joined onto the download directory as it is. *)
Theorem X4_key_without_base_prefix (cfg : Config) (fileKey : string) :
  occurs (S3_BASE_PREFIX cfg) fileKey = false ->
  localPathOf cfg fileKey = Path.join [DOWNLOAD_DIR cfg; fileKey].
Proof. intros H. unfold localPathOf. now rewrite replace_absent. Qed.

Lemma X4_key_without_base_prefix_witness :
  localPathOf sample_config "other/x.json" = "out/other/x.json".
Proof.
  rewrite (X4_key_without_base_prefix sample_config "other/x.json" eq_refl).
  reflexivity.
Defined.

(** X5: [listAllFiles] returns a list exactly when the pages it reads, each
    requested with the token of the page before, reach within the bound a
    page whose next token is not truthy (not truncated, or truncated with a
    missing or empty token); the list is then the keys of the pages read,
    in order.  In particular a truncated page without a token ends the
    listing with what was read so far. *)
Theorem X5_listAllFiles_returns_pages_read (cfg : Config) (c : S3.Client)
    (fuel : nat) (prefix : string) (found : list string) :
  listAllFiles cfg c fuel prefix = Fulfilled found <->
  exists pages,
    answered c (BUCKET_NAME cfg) prefix None None pages /\
    length pages <= fuel /\
    found = concat (map keys_of pages).
Proof.
  unfold listAllFiles. split.
  - intros H. destruct (listAllFiles_loop_inv cfg c prefix fuel _ _ _ H)
      as (pages & Ha & Hl & Hf).
    exists pages. auto.
  - intros (pages & Ha & Hl & ->).
    now rewrite (listAllFiles_loop_answered cfg c prefix _ _ Ha fuel [] Hl).
Qed.

Lemma X5_listAllFiles_returns_pages_read_witness :
  S3.IsTruncated cut_page = true /\
  listAllFiles sample_config cut_client 1 "base/folder1/"
  = Fulfilled ["base/folder1/a.txt"].
Proof.
  split; [reflexivity|].
  apply (X5_listAllFiles_returns_pages_read sample_config cut_client 1 "base/folder1/").
  exists [cut_page]. split; [|split; [simpl; lia | reflexivity]].
  apply answered_last; reflexivity.
Defined.

(** X6: what [listFolders] returns has no duplicates, and it is the common
    prefixes of the pages read, in the order of their first occurrence. *)
Theorem X6_listFolders_returns_distinct_prefixes (cfg : Config) (c : S3.Client)
    (fuel : nat) (prefix : string) (found : list string) :
  listFolders cfg c fuel prefix = Fulfilled found ->
  NoDup found /\
  exists pages,
    answered c (BUCKET_NAME cfg) prefix (Some "/") None pages /\
    length pages <= fuel /\
    found = first_occurrences (concat (map prefixes_of pages)) /\
    forall x, x ∈ found <-> exists page, page ∈ pages /\ x ∈ prefixes_of page.
Proof.
  unfold listFolders. intros H.
  destruct (listFolders_loop_inv cfg c prefix fuel _ _ _ H) as (pages & Ha & Hl & Hf).
  fold (first_occurrences (concat (map prefixes_of pages))) in Hf.
  destruct (first_occurrences_spec (concat (map prefixes_of pages))) as [Hn He].
  subst found. split; [exact Hn|]. exists pages.
  split; [exact Ha|]. split; [exact Hl|]. split; [reflexivity|].
  intros x. rewrite He, list_elem_of_In, in_concat. split.
  - intros (l & Hl' & Hx). apply in_map_iff in Hl' as (page & <- & Hp).
    exists page. now rewrite !list_elem_of_In.
  - intros (page & Hp & Hx). exists (prefixes_of page).
    apply list_elem_of_In in Hp. apply list_elem_of_In in Hx. split; [|exact Hx].
    apply in_map_iff. eauto.
Qed.

Lemma X6_listFolders_returns_distinct_prefixes_witness :
  NoDup ["base/folder1/rec-1/"; "base/folder1/rec-2/"].
Proof.
  apply (X6_listFolders_returns_distinct_prefixes sample_config sample_client 2
           "base/folder1/").
  vm_compute. reflexivity.
Defined.

(** X8: when [downloadFile] returns [true], nothing existed at the local
    path before, one [GetObject] request was sent, for the key, the stream
    ended without error, the file now holds the bytes of the body, and its
    directory exists. *)
Theorem X8_downloaded_file_is_there (cfg : Config) (c : S3.Client)
    (key localPath : string) (w : World) :
  fst (downloadFile cfg c key localPath w) = Downloaded ->
  Fs.stat (files w) localPath = None /\
  gets (snd (downloadFile cfg c key localPath w)) = gets w ++ [key] /\
  exists response,
    S3.send_get c {| S3.get_Bucket := BUCKET_NAME cfg; S3.get_Key := key |}
      = inr response /\
    S3.ends_well (S3.Body response) = true /\
    Fs.stat (files (snd (downloadFile cfg c key localPath w))) localPath
      = Some (Fs.File (S3.delivered (S3.Body response))) /\
    Fs.stat (files (snd (downloadFile cfg c key localPath w))) (Path.dirname localPath)
      = Some Fs.Dir.
Proof.
  intros H. destruct (downloadFile_outcomes cfg c key localPath w) as [_ Ho].
  cbv zeta in Ho. rewrite H in Ho. exact Ho.
Qed.

Lemma X8_downloaded_file_is_there_witness :
  Fs.stat (files (snd (downloadFile sample_config sample_client
                         "base/folder1/rec-1/photos/img1.jpg"
                         "out/folder1/rec-1/photos/img1.jpg" empty_world)))
          "out/folder1/rec-1/photos"
  = Some Fs.Dir.
Proof.
  destruct (X8_downloaded_file_is_there sample_config sample_client
              "base/folder1/rec-1/photos/img1.jpg" "out/folder1/rec-1/photos/img1.jpg"
              empty_world) as (_ & _ & response & _ & _ & _ & Hd).
  - vm_compute. reflexivity.
  - exact Hd.
Defined.

(** X9: a run never deletes or overwrites: whatever exists in the local
    directory when [downloadFromS3] starts, file or directory, is there
    unchanged when it ends, completed or rejected. *)
Theorem X9_run_keeps_existing_files (cfg : Config) (c : S3.Client) (fuel : nat)
    (w : World) (st : State) (p : string) (node : Fs.node) :
  ended (downloadFromS3 cfg c fuel w) = Some st ->
  Fs.stat (files w) p = Some node ->
  Fs.stat (files (snd st)) p = Some node.
Proof.
  intros H.
  apply (run_respects cfg c fuel keeps_files
           (fun st0 => extends_refl _)
           (fun a b d => extends_trans _ _ _)
           (fetch_keeps_files cfg c)
           (fun st0 => extends_refl _)
           (fun st0 => extends_refl _) w st H).
Qed.

Lemma X9_run_keeps_existing_files_witness :
  Fs.stat (files (snd sample_again)) "out/folder1/rec-2/metadata.json"
  = Some (Fs.File "{").
Proof.
  apply (X9_run_keeps_existing_files sample_config sample_client 2
           (snd sample_final) sample_again); vm_compute; reflexivity.
Defined.

(** X10: over a run that ends, the [GetObject] requests sent are, in order,
    the keys of the calls of [downloadFile] that did not return ['skipped']:
    one request for each download and each failure, none for a skip. *)
Theorem X10_one_request_per_attempt (cfg : Config) (c : S3.Client) (fuel : nat)
    (w : World) (st : State) :
  ended (downloadFromS3 cfg c fuel w) = Some st ->
  exists lines,
    console (snd st) = console w ++ lines /\
    gets (snd st) = gets w ++ requested lines /\
    length (requested lines) = lines_with Downloaded lines + lines_with Failed lines.
Proof.
  intros H.
  destruct (run_respects cfg c fuel accounted accounted_refl accounted_trans
              (fetch_accounted cfg c)
              (fun st0 => accounted_refl _) (fun st0 => accounted_refl _) w st H)
    as (lines & Hc & Hg).
  exists lines. split; [exact Hc|]. split; [exact Hg|].
  unfold requested, lines_with. rewrite length_map. clear.
  induction lines as [|[k o] lines IH]; [reflexivity|].
  destruct o; simpl; rewrite IH; lia.
Qed.

Lemma X10_one_request_per_attempt_witness :
  gets (snd sample_final)
  = ["base/folder1/rec-1/metadata.json"; "base/folder1/rec-1/config.json";
     "base/folder1/rec-1/photos/img1.jpg";
     "base/folder1/rec-2/metadata.json"; "base/folder1/rec-2/config.json"] /\
  exists lines, console (snd sample_final) = lines /\
                gets (snd sample_final) = requested lines.
Proof.
  split; [vm_compute; reflexivity|].
  destruct (X10_one_request_per_attempt sample_config sample_client 2
              empty_world sample_final) as (lines & Hc & Hg & _).
  - vm_compute. reflexivity.
  - exists lines. split; [exact Hc | exact Hg].
Defined.

(** X11: within a run no local path is written twice: every download goes
    to a path at which nothing existed when the run started, and the local
    paths of the downloaded keys are pairwise different. *)
Theorem X11_each_path_written_once (cfg : Config) (c : S3.Client) (fuel : nat)
    (w : World) (st : State) :
  ended (downloadFromS3 cfg c fuel w) = Some st ->
  exists lines,
    console (snd st) = console w ++ lines /\
    (forall key, key ∈ downloaded_keys lines ->
       Fs.stat (files w) (localPathOf cfg key) = None /\
       Fs.stat (files (snd st)) (localPathOf cfg key) <> None) /\
    NoDup (map (localPathOf cfg) (downloaded_keys lines)).
Proof.
  intros H.
  destruct (run_respects cfg c fuel (written_once cfg)
              (written_once_refl cfg) (written_once_trans cfg)
              (fetch_written_once cfg c)
              (fun st0 => written_once_refl cfg _)
              (fun st0 => written_once_refl cfg _) w st H)
    as (_ & lines & Hc & Hk & Hn).
  exists lines. auto.
Qed.

Lemma X11_each_path_written_once_witness :
  exists lines,
    console (snd sample_final) = lines /\
    NoDup (map (localPathOf sample_config) (downloaded_keys lines)).
Proof.
  destruct (X11_each_path_written_once sample_config sample_client 2
              empty_world sample_final) as (lines & Hc & _ & Hn).
  - vm_compute. reflexivity.
  - exists lines. split; [exact Hc | exact Hn].
Defined.

(** X12: a run keeps the local directory a tree: when everything that
    exists at the start lies in a directory, so does everything that exists
    at the end; every file downloaded has all its parent directories. *)
Theorem X12_run_keeps_tree (cfg : Config) (c : S3.Client) (fuel : nat)
    (w : World) (st : State) :
  well_formed (files w) ->
  ended (downloadFromS3 cfg c fuel w) = Some st ->
  well_formed (files (snd st)).
Proof.
  intros Hwf H.
  apply (run_respects cfg c fuel keeps_tree
           (fun st0 Hw => Hw) keeps_tree_trans
           (fetch_keeps_tree cfg c)
           (fun st0 Hw => Hw) (fun st0 Hw => Hw) w st H).
  exact Hwf.
Qed.

Lemma X12_run_keeps_tree_witness :
  Fs.stat (files (snd sample_final)) (Path.dirname "out/folder1/rec-1/photos/img1.jpg")
  = Some Fs.Dir.
Proof.
  apply (X12_run_keeps_tree sample_config sample_client 2 empty_world sample_final
           well_formed_empty)
    with (n := Fs.File "JFIF"); vm_compute; reflexivity.
Defined.

Section Reached.

Variable cfg : Config.
Variable c : S3.Client.
Variable fuel : nat.

(** A record folder is counted as soon as the loop enters it, however the
    loop body ends. *)
Lemma process_record_folder_entered (subFolder : string) (st st' : State) :
  ended (process_record_folder cfg c fuel subFolder st) = Some st' ->
  totalRecordFolders (fst st') = S (totalRecordFolders (fst st)) /\
  totalFolders (fst st') = totalFolders (fst st).
Proof.
  intros H. unfold process_record_folder in H.
  assert (H1 : same_folders (count_record_folder (fst st), snd st)
                 (download_json_files cfg c subFolder
                    (count_record_folder (fst st), snd st))).
  { apply (fold_left_respects same_folders same_folders_refl same_folders_trans).
    intros x st0. apply fetch_same_folders. }
  pose proof (for_each_respects same_folders same_folders_refl same_folders_trans
                (download_folder cfg c fuel subFolder) (FOLDERS_TO_DOWNLOAD cfg)
                (download_folder_same_folders cfg c fuel subFolder) _ _ H) as H2.
  destruct (same_folders_trans _ _ _ H1 H2) as [Hf Hr].
  rewrite Hf, Hr. split; reflexivity.
Qed.

Lemma record_folders_reached (subFolders : list string) : forall st st',
  ended (for_each (process_record_folder cfg c fuel) subFolders st) = Some st' ->
  totalRecordFolders (fst st')
  = totalRecordFolders (fst st) + reached_record_folders cfg c fuel subFolders /\
  totalFolders (fst st') = totalFolders (fst st).
Proof.
  induction subFolders as [|subFolder rest IH]; intros st st' H; simpl in H.
  - injection H as <-. simpl. split; [lia | reflexivity].
  - pose proof (process_record_folder_stop cfg c fuel subFolder st) as Hstop.
    pose proof (process_record_folder_entered subFolder st) as Hin.
    simpl. rewrite <- Hstop.
    destruct (process_record_folder cfg c fuel subFolder st) as [sta|e sta|];
      [| |discriminate H].
    + destruct (Hin sta eq_refl) as [Hr Hf]. destruct (IH sta st' H) as [Hr' Hf'].
      simpl. split; [lia | congruence].
    + injection H as <-. destruct (Hin sta eq_refl) as [Hr Hf].
      simpl. split; [lia | exact Hf].
Qed.

End Reached.

(** X13: a main folder whose processing is ended by a rejected listing is
    not counted in [totalFolders], while [totalRecordFolders] has been
    raised by exactly the number of its record folders that the loop had
    entered: all up to and including the one in which the listing was
    rejected, and none when it was the listing of the record folders
    itself. *)
Theorem X13_interrupted_main_folder_is_not_counted (cfg : Config) (c : S3.Client)
    (fuel : nat) (mainFolder : string) (st st' : State) (e : S3.Error) :
  process_main_folder cfg c fuel mainFolder st = Crashed e st' ->
  totalFolders (fst st') = totalFolders (fst st) /\
  totalRecordFolders (fst st')
  = totalRecordFolders (fst st)
    + reached_record_folders cfg c fuel (record_folders cfg c fuel mainFolder).
Proof.
  intros H. unfold process_main_folder in H. unfold record_folders.
  destruct (listFolders cfg c fuel _) as [subFolders|e'|]; try discriminate H.
  - destruct (Nat.eqb _ 0); [discriminate H|].
    destruct (for_each _ subFolders st) as [sta|e' sta|] eqn:E; try discriminate H.
    injection H as <- <-.
    destruct (record_folders_reached cfg c fuel subFolders st sta) as [Hr Hf];
      [now rewrite E|].
    split; [exact Hf | exact Hr].
  - injection H as <- <-. simpl. split; [reflexivity | lia].
Qed.

Lemma X13_interrupted_main_folder_is_not_counted_witness :
  totalFolders (fst sample_interrupted) = 0 /\
  totalRecordFolders (fst sample_interrupted) = 1 /\
  length (record_folders sample_config failing_client 2 "folder1") = 2.
Proof.
  destruct (X13_interrupted_main_folder_is_not_counted sample_config failing_client 2
              "folder1" (no_stats, empty_world) sample_interrupted "SlowDown")
    as [Hf Hr].
  - vm_compute. reflexivity.
  - split; [exact Hf|]. split; [rewrite Hr|]; vm_compute; reflexivity.
Defined.

Lemma made_keeps_absent (fs fs1 : gmap string Fs.node) (localPath : string) :
  Fs.stat fs localPath = None ->
  (if negb (Fs.existsSync fs (Path.dirname localPath))
   then Fs.mkdirSync_recursive fs (Path.dirname localPath)
   else Some fs) = Some fs1 ->
  Fs.stat fs1 localPath = None.
Proof.
  intros Hp H. destruct (negb _).
  - unfold Fs.mkdirSync_recursive in H.
    rewrite (mkdirp_stat_other _ _ _ _ localPath H); [exact Hp|].
    apply dirname_height. now apply stat_none_not_root in Hp.
  - now injection H as <-.
Qed.

(** X14: when [downloadFile] returns [false] and yet leaves something at
    the local path, then the [GetObject] request had been answered with a
    body (the failure came after the read), what is left is a file, and
    from then on every call for that local path returns ['skipped'],
    whatever the key and whatever the bucket holds: the file that the
    failed call left is taken for the object. *)
Theorem X14_failed_call_that_leaves_a_file (cfg : Config) (c : S3.Client)
    (key localPath : string) (w : World) (node : Fs.node) :
  fst (downloadFile cfg c key localPath w) = Failed ->
  Fs.stat (files (snd (downloadFile cfg c key localPath w))) localPath = Some node ->
  Fs.stat (files w) localPath = None /\
  (exists response,
     S3.send_get c {| S3.get_Bucket := BUCKET_NAME cfg; S3.get_Key := key |}
       = inr response) /\
  (exists content, node = Fs.File content) /\
  forall c' key' w2,
    extends (files (snd (downloadFile cfg c key localPath w))) (files w2) ->
    downloadFile cfg c' key' localPath w2 = (Skipped, print key' Skipped w2).
Proof.
  intros Hf Hs.
  assert (Hlater : forall c' key' w2,
             extends (files (snd (downloadFile cfg c key localPath w))) (files w2) ->
             downloadFile cfg c' key' localPath w2 = (Skipped, print key' Skipped w2)).
  { intros c' key' w2 Hext. apply downloadFile_present.
    apply existsSync_true. rewrite (Hext _ _ Hs). discriminate. }
  revert Hf Hs Hlater. unfold downloadFile.
  destruct (Fs.existsSync (files w) localPath) eqn:Hex; [discriminate 1|].
  apply existsSync_false in Hex.
  destruct (S3.send_get c _) as [e|response] eqn:Hget.
  { cbn [fst snd files print sent_get]. intros _ Hs. congruence. }
  cbn [files sent_get].
  destruct (if negb _ then _ else _) as [fs1|] eqn:Em.
  2: { cbn [fst snd files print sent_get]. intros _ Hs. congruence. }
  pose proof (made_keeps_absent (files w) fs1 localPath Hex Em) as Hmade.
  unfold Fs.pipeline. rewrite Hmade.
  destruct (Fs.stat fs1 (Path.dirname localPath)) as [[content|]|];
    try (cbn [fst snd files print with_files]; intros _ Hs; congruence).
  destruct (S3.ends_well (S3.Body response));
    cbn [fst snd files print with_files]; intros Hf Hs Hlater; [discriminate Hf|].
  rewrite stat_insert_eq in Hs by (now apply stat_none_not_root in Hex).
  injection Hs as <-.
  split; [exact Hex|]. split; [eauto|]. split; [eauto | exact Hlater].
Qed.

Lemma X14_failed_call_that_leaves_a_file_witness :
  fst (downloadFile sample_config denied_client "base/folder1/rec-2/other.json"
         "out/folder1/rec-2/metadata.json"
         (snd (downloadFile sample_config sample_client "base/folder1/rec-2/metadata.json"
                 "out/folder1/rec-2/metadata.json" prepared_world)))
  = Skipped.
Proof.
  destruct (X14_failed_call_that_leaves_a_file sample_config sample_client
              "base/folder1/rec-2/metadata.json" "out/folder1/rec-2/metadata.json"
              prepared_world (Fs.File "{")) as (_ & _ & _ & Hlater).
  - vm_compute. reflexivity.
  - vm_compute. reflexivity.
  - rewrite (Hlater denied_client "base/folder1/rec-2/other.json" _ (extends_refl _)).
    reflexivity.
Defined.

Section Delivered.

Variable cfg : Config.
Variable c : S3.Client.

Lemma delivered_all_refl (st : State) : delivered_all cfg c st st.
Proof.
  split; [apply extends_refl|]. exists []. rewrite app_nil_r.
  split; [reflexivity|]. intros key H. now apply elem_of_nil in H.
Qed.

Lemma delivered_all_trans (a b d : State) :
  delivered_all cfg c a b -> delivered_all cfg c b d -> delivered_all cfg c a d.
Proof.
  intros (He1 & l1 & Hc1 & Hk1) (He2 & l2 & Hc2 & Hk2).
  split; [eapply extends_trans; eassumption|].
  exists (l1 ++ l2). rewrite Hc2, Hc1, app_assoc. split; [reflexivity|].
  rewrite downloaded_keys_app. intros key Hkey.
  apply elem_of_app in Hkey as [Hkey|Hkey]; [|now apply Hk2].
  destruct (Hk1 key Hkey) as (response & Hg & Hw & Hs).
  exists response. auto.
Qed.

Lemma fetch_delivered_all (fileKey : string) (st : State) :
  delivered_all cfg c st (fetch cfg c fileKey st).
Proof.
  destruct (fetch_step cfg c fileKey st) as [E Hc].
  pose proof (downloadFile_outcomes cfg c fileKey (localPathOf cfg fileKey) (snd st))
    as [Hext Ho].
  cbv zeta in Ho. split; [rewrite E; exact Hext|].
  eexists. split; [exact Hc|]. unfold downloaded_keys.
  rewrite E. cbn [fst snd].
  destruct (fst (downloadFile cfg c fileKey (localPathOf cfg fileKey) (snd st))); simpl.
  - destruct Ho as (_ & _ & response & Hg & Hw & Hs & _).
    intros key Hkey. apply list_elem_of_singleton in Hkey. subst key.
    exists response. auto.
  - now intros key ?%elem_of_nil.
  - now intros key ?%elem_of_nil.
Qed.

End Delivered.

(** X15: when a run ends, every key that it reported as downloaded has its
    object on disk: the [GetObject] request for the key is answered with a
    body whose stream ends without error, and the file at the key's local
    path holds the bytes of that body. *)
Theorem X15_downloaded_objects_are_on_disk (cfg : Config) (c : S3.Client) (fuel : nat)
    (w : World) (st : State) :
  ended (downloadFromS3 cfg c fuel w) = Some st ->
  exists lines,
    console (snd st) = console w ++ lines /\
    forall key, key ∈ downloaded_keys lines ->
      exists response,
        S3.send_get c {| S3.get_Bucket := BUCKET_NAME cfg; S3.get_Key := key |}
          = inr response /\
        S3.ends_well (S3.Body response) = true /\
        Fs.stat (files (snd st)) (localPathOf cfg key)
          = Some (Fs.File (S3.delivered (S3.Body response))).
Proof.
  intros H.
  destruct (run_respects cfg c fuel (delivered_all cfg c)
              (delivered_all_refl cfg c) (delivered_all_trans cfg c)
              (fetch_delivered_all cfg c)
              (fun st0 => delivered_all_refl cfg c _)
              (fun st0 => delivered_all_refl cfg c _) w st H)
    as (_ & lines & Hc & Hk).
  exists lines. auto.
Qed.

Lemma X15_downloaded_objects_are_on_disk_witness :
  exists response,
    sample_get {| S3.get_Bucket := "bucket";
                  S3.get_Key := "base/folder1/rec-1/photos/img1.jpg" |} = inr response /\
    Fs.stat (files (snd sample_final)) "out/folder1/rec-1/photos/img1.jpg"
    = Some (Fs.File (S3.delivered (S3.Body response))).
Proof.
  destruct (X15_downloaded_objects_are_on_disk sample_config sample_client 2
              empty_world sample_final) as (lines & Hc & Hk).
  - vm_compute. reflexivity.
  - destruct (Hk "base/folder1/rec-1/photos/img1.jpg") as (response & Hg & _ & Hs).
    + assert (El : lines = console (snd sample_final)) by (rewrite Hc; reflexivity).
      rewrite El. vm_compute. right. left.
    + exists response. split; [exact Hg | exact Hs].
Defined.
